(** * Notepad: a command interpreter over a text buffer

    A shallow embedding of the two [notepad] functions of the repository:
    the one with text selection (the source file whose name is not
    recorded, [src/unnamed/part_000]) in module [Notepad], and the earlier
    one of [src/index.js] in module [IndexJs].

    JavaScript values are modelled as follows.
    - A string is a [string]; one character stands for one UTF-16 code
      unit, so that [length] is [.length].
    - A number is a mathematical integer or [NaN] (type [number]).
      JavaScript computes on doubles: [+] and [-] are exact as long as
      the operands and the result are safe integers (at most 2^53 - 1 in
      absolute value, see [safe]) and round beyond.  The sums and
      differences of the model are not rounded, so a statement that
      gives a cursor computed by [+] or [-] from arbitrary integers
      carries the hypothesis that they are safe; clamped results, signs
      and comparisons against a length are the same with rounding.
    - [console.warn] appends to a list of lines carried by the state.
    - A [TypeError] (reading a property of [null]) is a [Throw] of the
      [result] monad. *)

From Stdlib Require Import ZArith List String Ascii Bool Lia.
Import ListNotations.

Local Open Scope string_scope.
Local Open Scope Z_scope.

(** ** JavaScript primitives *)

Module JS.

(** *** Exceptions *)

Inductive exn : Type :=
| TypeError (msg : string).

Inductive result (A : Type) : Type :=
| Ok (a : A)
| Throw (e : exn).

Arguments Ok {A} a.
Arguments Throw {A} e.

Definition ret {A : Type} (a : A) : result A := Ok a.

Definition bind {A B : Type} (m : result A) (k : A -> result B) : result B :=
  match m with
  | Ok a => k a
  | Throw e => Throw e
  end.

(** *** Numbers *)

Inductive number : Type :=
| Int (z : Z)
| NaN.

(** [a + b] and [a - b] on numbers, not rounded: the sum and the
    difference of the code when operands and result are safe integers. *)
Definition add (a b : number) : number :=
  match a, b with
  | Int x, Int y => Int (x + y)
  | _, _ => NaN
  end.

Definition sub (a b : number) : number :=
  match a, b with
  | Int x, Int y => Int (x - y)
  | _, _ => NaN
  end.

(** [a < b] and [a > b]: false as soon as one side is [NaN]. *)
Definition lt (a b : number) : bool :=
  match a, b with
  | Int x, Int y => x <? y
  | _, _ => false
  end.

Definition gt (a b : number) : bool := lt b a.

(** [Math.max(a, b)]: [NaN] as soon as one argument is [NaN]. *)
Definition Math_max (a b : number) : number :=
  match a, b with
  | Int x, Int y => Int (Z.max x y)
  | _, _ => NaN
  end.

(** [ToNumber] of an integer field that may be absent: [undefined]
    converts to [NaN]. *)
Definition ToNumber (v : option Z) : number :=
  match v with
  | Some z => Int z
  | None => NaN
  end.

(** [ToIntegerOrInfinity]: [NaN] converts to [0]. *)
Definition ToIntegerOrInfinity (n : number) : Z :=
  match n with
  | Int z => z
  | NaN => 0
  end.

(** *** Strings *)

Definition len (s : string) : Z := Z.of_nat (String.length s).

(** The index computation of [String.prototype.slice]: a negative
    index counts from the end, and the result is clamped into
    [0 .. len]. *)
Definition relative_index (rel size : Z) : Z :=
  if rel <? 0 then Z.max (size + rel) 0 else Z.min rel size.

(** [s.slice(start, end)]; [end_ = None] is [s.slice(start)]. *)
Definition slice (s : string) (start : number) (end_ : option number) : string :=
  let size := len s in
  let from := relative_index (ToIntegerOrInfinity start) size in
  let to :=
    match end_ with
    | None => size
    | Some e => relative_index (ToIntegerOrInfinity e) size
    end in
  if to <=? from then EmptyString
  else substring (Z.to_nat from) (Z.to_nat (to - from)) s.

End JS.

Import JS.

Declare Scope js_scope.
Delimit Scope js_scope with js.
Notation "x <- m ;; k" := (bind m (fun x => k))
  (at level 61, m at next level, right associativity) : js_scope.
Local Open Scope js_scope.

(** ** Commands

    The command tuples [[command, value, rightPos]] as a tagged union.
    The count of [BACKSPACE] may be left out (the source's own test data
    has [["BACKSPACE"]]); [value] is then [undefined]. *)

Inductive command : Type :=
| APPEND (value : string)
| MOVE (value : Z)
| BACKSPACE (value : option Z)
| INSERT (value : string)
| SELECT (value rightPos : Z).

Definition command_name (t : command) : string :=
  match t with
  | APPEND _ => "APPEND"
  | MOVE _ => "MOVE"
  | BACKSPACE _ => "BACKSPACE"
  | INSERT _ => "INSERT"
  | SELECT _ _ => "SELECT"
  end.

Definition skip_message (t : command) : string :=
  "Skipping '" ++ command_name t ++ "' command - no content exists yet.".

(** [resultsArray[resultsArray.length - 1] || '']. *)
Definition last_or_empty (resultsArray : list string) : string :=
  last resultsArray EmptyString.

(** ** The notepad with selection ([src/unnamed/part_000]) *)

Module Notepad.

(** The object [{ start, end }]. *)
Record range : Type := mkRange { start : Z; end_ : Z }.

Record state : Type := mkState {
  resultsArray : list string;
  cursor : number;
  selection : option range;   (* [None] is [null] *)
  console : list string
}.

Definition init : state :=
  {| resultsArray := []; cursor := Int 0; selection := None; console := [] |}.

(** Assignments to the variables of the closure. *)
Definition push (x : string) (st : state) : state :=
  {| resultsArray := resultsArray st ++ [x]; cursor := cursor st;
     selection := selection st; console := console st |}.

Definition set_cursor (c : number) (st : state) : state :=
  {| resultsArray := resultsArray st; cursor := c;
     selection := selection st; console := console st |}.

Definition set_selection (sel : option range) (st : state) : state :=
  {| resultsArray := resultsArray st; cursor := cursor st;
     selection := sel; console := console st |}.

Definition warn (line : string) (st : state) : state :=
  {| resultsArray := resultsArray st; cursor := cursor st;
     selection := selection st; console := console st ++ [line] |}.

(** [if (selection)]: an object is truthy, [null] is not. *)
Definition truthy (sel : option range) : bool :=
  match sel with
  | Some _ => true
  | None => false
  end.

(** [selection.start] and [selection.end]: reading a property of
    [null] throws. *)
Definition selection_start (st : state) : result Z :=
  match selection st with
  | Some r => Ok (start r)
  | None => Throw (TypeError "Cannot read properties of null (reading 'start')")
  end.

Definition selection_end (st : state) : result Z :=
  match selection st with
  | Some r => Ok (end_ r)
  | None => Throw (TypeError "Cannot read properties of null (reading 'end')")
  end.

(** [Math.max(0, Math.min(pos, textLength))] on integers. *)
Definition clampPosition (pos textLength : Z) : Z :=
  Z.max 0 (Z.min pos textLength).

Definition clearSelection (newCursor : option number) (st : state) : state :=
  let st := set_selection None st in
  match newCursor with
  | Some c => set_cursor c st
  | None => st
  end.

(** The guard at the head of the loop body. *)
Definition skipped (t : command) (st : state) : bool :=
  match t with
  | APPEND _ | INSERT _ | SELECT _ _ => false
  | MOVE _ | BACKSPACE _ => (List.length (resultsArray st) =? 0)%nat
  end.

(** One call of the function passed to [forEach]. *)
Definition step (st : state) (t : command) : result state :=
  if skipped t st then ret (warn (skip_message t) st)
  else
    let lastResult := last_or_empty (resultsArray st) in
    match t with
    | SELECT value rightPos =>
        let textLength := len lastResult in
        let leftClamped := clampPosition value textLength in
        let rightClamped := clampPosition rightPos textLength in
        if leftClamped =? rightClamped then
          let st := set_selection None st in
          ret (set_cursor (Int leftClamped) st)
        else
          let st := set_selection (Some (mkRange leftClamped rightClamped)) st in
          ret (set_cursor (Int rightClamped) st)
    | APPEND value =>
        if truthy (selection st) then
          s <- selection_start st ;;
          e <- selection_end st ;;
          let newText :=
            slice lastResult (Int 0) (Some (Int s)) ++ value
            ++ slice lastResult (Int e) None in
          let st := push newText st in
          s' <- selection_start st ;;
          let st := set_cursor (Int (s' + len value)) st in
          ret (clearSelection None st)
        else
          let st := push (lastResult ++ value) st in
          ret (set_cursor (Int (len (lastResult ++ value))) st)
    | MOVE value =>
        let st := clearSelection None st in
        if lt (add (cursor st) (Int value)) (Int 0) then
          ret (set_cursor (Int 0) st)
        else if gt (add (cursor st) (Int value)) (Int (len lastResult)) then
          ret (set_cursor (Int (len lastResult)) st)
        else
          ret (set_cursor (add (cursor st) (Int value)) st)
    | BACKSPACE value =>
        if truthy (selection st) then
          s <- selection_start st ;;
          e <- selection_end st ;;
          let newText :=
            slice lastResult (Int 0) (Some (Int s))
            ++ slice lastResult (Int e) None in
          let st := push newText st in
          s' <- selection_start st ;;
          let st := set_cursor (Int s') st in
          ret (clearSelection None st)
        else
          let deleteStart := Math_max (Int 0) (sub (cursor st) (ToNumber value)) in
          let newText :=
            slice lastResult (Int 0) (Some deleteStart)
            ++ slice lastResult (cursor st) None in
          let st := push newText st in
          ret (set_cursor deleteStart st)
    | INSERT value =>
        if truthy (selection st) then
          s <- selection_start st ;;
          e <- selection_end st ;;
          let newText :=
            slice lastResult (Int 0) (Some (Int s)) ++ value
            ++ slice lastResult (Int e) None in
          let st := push newText st in
          s' <- selection_start st ;;
          let st := set_cursor (Int (s' + len value)) st in
          ret (clearSelection None st)
        else if (List.length (resultsArray st) =? 0)%nat then
          let st := push value st in
          ret (set_cursor (Int (len value)) st)
        else
          let newText :=
            slice lastResult (Int 0) (Some (cursor st)) ++ value
            ++ slice lastResult (cursor st) None in
          let st := push newText st in
          ret (set_cursor (add (cursor st) (Int (len value))) st)
    end.

(** [inputCommands.forEach(...)]: the calls in order; an exception
    ends the loop. *)
Fixpoint forEach (inputCommands : list command) (st : state) : result state :=
  match inputCommands with
  | [] => ret st
  | t :: rest => st' <- step st t ;; forEach rest st'
  end.

Definition notepad (inputCommands : list command) : result (list string) :=
  st <- forEach inputCommands init ;;
  ret (resultsArray st).

End Notepad.

(** ** The earlier notepad ([src/index.js]) *)

Module IndexJs.

Record state : Type := mkState {
  resultsArray : list string;
  cursor : number;
  console : list string
}.

Definition init : state :=
  {| resultsArray := []; cursor := Int 0; console := [] |}.

Definition push (x : string) (st : state) : state :=
  {| resultsArray := resultsArray st ++ [x]; cursor := cursor st;
     console := console st |}.

Definition set_cursor (c : number) (st : state) : state :=
  {| resultsArray := resultsArray st; cursor := c; console := console st |}.

Definition warn (line : string) (st : state) : state :=
  {| resultsArray := resultsArray st; cursor := cursor st;
     console := console st ++ [line] |}.

(** The guard: every command but [APPEND] and [INSERT]. *)
Definition skipped (t : command) (st : state) : bool :=
  match t with
  | APPEND _ | INSERT _ => false
  | MOVE _ | BACKSPACE _ | SELECT _ _ => (List.length (resultsArray st) =? 0)%nat
  end.

Definition step (st : state) (t : command) : result state :=
  if skipped t st then ret (warn (skip_message t) st)
  else
    let lastResult := last_or_empty (resultsArray st) in
    match t with
    | APPEND value =>
        let st := push (lastResult ++ value) st in
        ret (set_cursor (Int (len (lastResult ++ value))) st)
    | MOVE value =>
        if lt (add (cursor st) (Int value)) (Int 0) then
          ret (set_cursor (Int 0) st)
        else if gt (add (cursor st) (Int value)) (Int (len lastResult - 1)) then
          ret (set_cursor (Int (len lastResult - 1)) st)
        else
          ret (set_cursor (add (cursor st) (Int value)) st)
    | BACKSPACE value =>
        let pushMe :=
          slice lastResult (Int 0) (Some (sub (cursor st) (ToNumber value)))
          ++ slice lastResult (cursor st) (Some (Int (len lastResult))) in
        let st := push pushMe st in
        ret (set_cursor (sub (cursor st) (ToNumber value)) st)
    | INSERT value =>
        if (List.length (resultsArray st) =? 0)%nat then
          let st := push value st in
          ret (set_cursor (Int (len value)) st)
        else
          let st' :=
            push (slice lastResult (Int 0) (Some (cursor st)) ++ value
                  ++ slice lastResult (cursor st) (Some (Int (len lastResult)))) st in
          ret (set_cursor (add (cursor st') (Int (len value))) st')
    | SELECT _ _ => ret st   (* [default: break] *)
    end.

Fixpoint forEach (inputCommands : list command) (st : state) : result state :=
  match inputCommands with
  | [] => ret st
  | t :: rest => st' <- step st t ;; forEach rest st'
  end.

Definition notepad (inputCommands : list command) : result (list string) :=
  st <- forEach inputCommands init ;;
  ret (resultsArray st).

End IndexJs.

(** ** Notions used by the statements *)

Import Notepad.

(** The current buffer: the last snapshot, or the empty string. *)
Definition current (st : state) : string := last_or_empty (resultsArray st).

(** [0 <= cursor <= length(current buffer)]. *)
Definition cursor_in_bounds (st : state) : Prop :=
  exists c, cursor st = Int c /\ 0 <= c <= len (current st).

(** Both ends of an active selection lie in the buffer. *)
Definition selection_in_bounds (st : state) : Prop :=
  match selection st with
  | None => True
  | Some r => 0 <= start r <= len (current st) /\ 0 <= end_ r <= len (current st)
  end.

(** The states the engine can be in: those [forEach] reaches from [init]. *)
Definition reachable (st : state) : Prop :=
  exists inputCommands, forEach inputCommands init = Ok st.

(** The commands that can put text into an empty notepad. *)
Definition originates (t : command) : bool :=
  match t with
  | APPEND _ | INSERT _ => true
  | MOVE _ | BACKSPACE _ | SELECT _ _ => false
  end.

Definition is_select (t : command) : bool :=
  match t with
  | SELECT _ _ => true
  | _ => false
  end.

(** A [BACKSPACE] that deletes by count (no selection, some content)
    names its count, and the count is not negative. *)
Definition counted (st : state) (t : command) : bool :=
  match t with
  | BACKSPACE value =>
      if truthy (selection st) || (List.length (resultsArray st) =? 0)%nat then true
      else match value with
           | Some n => 0 <=? n
           | None => false
           end
  | _ => true
  end.

(** [counted] all along a run from [st]. *)
Fixpoint counted_run (st : state) (inputCommands : list command) : bool :=
  match inputCommands with
  | [] => true
  | t :: rest =>
      counted st t &&
      match step st t with
      | Ok st' => counted_run st' rest
      | Throw _ => false
      end
  end.

(** The slices [s[0:b]] and [s[a:]] of the specification, for indexes
    that are not negative: the first [b] characters of [s], and what
    follows its first [a] characters. *)
Definition upto (b : Z) (s : string) : string :=
  substring 0 (Z.to_nat b) s.

Definition from (a : Z) (s : string) : string :=
  substring (Z.to_nat a) (String.length s - Z.to_nat a) s.

(** Before any content the cursor is at 0 and nothing is selected. *)
Definition blank (st : state) : Prop :=
  resultsArray st = [] -> cursor st = Int 0 /\ selection st = None.

(** No position is negative: the cursor is [NaN] or at least 0, and a
    selection starts at 0 or later. *)
Definition not_negative (st : state) : Prop :=
  match cursor st with
  | Int c => 0 <= c
  | NaN => True
  end /\
  match selection st with
  | Some r => 0 <= start r
  | None => True
  end.

(** [c] is [pos] clamped into [0 .. n]. *)
Definition clamped (pos n c : Z) : Prop :=
  (pos < 0 /\ c = 0) \/ (0 <= pos <= n /\ c = pos) \/ (n < pos /\ c = n).

(** The state after [APPEND "Hello World!"]. *)
Definition hello : state :=
  {| resultsArray := ["Hello World!"]; cursor := Int 12; selection := None;
     console := [] |}.

(** The invariants of the data model together. *)
Definition well_formed (st : state) : Prop :=
  cursor_in_bounds st /\ selection_in_bounds st.

(** The state after [APPEND "ab"], and after [BACKSPACE -3] then. *)
Definition ab : state :=
  {| resultsArray := ["ab"]; cursor := Int 2; selection := None; console := [] |}.

Definition ab_overshoot : state :=
  {| resultsArray := ["ab"; "ab"]; cursor := Int 5; selection := None;
     console := [] |}.

(** The two notepads are in step: same log, same cursor, nothing
    selected. *)
Definition in_step (old : IndexJs.state) (st : state) : Prop :=
  IndexJs.resultsArray old = resultsArray st /\
  IndexJs.cursor old = cursor st /\
  selection st = None.

(** Only [APPEND] and [INSERT]. *)
Definition only_text (inputCommands : list command) : bool :=
  forallb originates inputCommands.

(** The commands that append a snapshot once there is content. *)
Definition produces (t : command) : bool :=
  match t with
  | APPEND _ | INSERT _ | BACKSPACE _ => true
  | MOVE _ | SELECT _ _ => false
  end.

(** The commands that the guard skips while the log is empty. *)
Definition guarded (t : command) : bool :=
  match t with
  | MOVE _ | BACKSPACE _ => true
  | APPEND _ | INSERT _ | SELECT _ _ => false
  end.

(** The commands of a list before its first [APPEND] or [INSERT], and
    the list from that command on. *)
Fixpoint before_content (inputCommands : list command) : list command :=
  match inputCommands with
  | [] => []
  | t :: rest => if originates t then [] else t :: before_content rest
  end.

Fixpoint from_content (inputCommands : list command) : list command :=
  match inputCommands with
  | [] => []
  | t :: rest => if originates t then inputCommands else from_content rest
  end.

(** What holds of a selection while there is one: there is content, the
    cursor is at the end of the selection, both ends lie in the buffer
    and differ. *)
Definition selection_settled (st : state) : Prop :=
  match selection st with
  | None => True
  | Some r =>
      resultsArray st <> [] /\ cursor st = Int (end_ r) /\
      0 <= start r <= len (current st) /\ 0 <= end_ r <= len (current st) /\
      start r <> end_ r
  end.




Definition sets_cursor (t : command) : bool :=
  match t with
  | APPEND _ | SELECT _ _ => true
  | MOVE _ | BACKSPACE _ | INSERT _ => false
  end.

(** The state of [src/index.js] after [APPEND "Hello World!"]. *)
Definition index_js_hello : IndexJs.state :=
  {| IndexJs.resultsArray := ["Hello World!"]; IndexJs.cursor := Int 12;
     IndexJs.console := [] |}.

(** The text that an [APPEND] or an [INSERT] carries. *)
Definition text_of (t : command) : string :=
  match t with
  | APPEND value | INSERT value => value
  | MOVE _ | BACKSPACE _ | SELECT _ _ => EmptyString
  end.

(** [Number.MAX_SAFE_INTEGER], and the integers on which the arithmetic
    of the code is exact. *)
Definition MAX_SAFE_INTEGER : Z := 2 ^ 53 - 1.

Definition safe (z : Z) : Prop := - MAX_SAFE_INTEGER <= z <= MAX_SAFE_INTEGER.

(** Only [APPEND], [MOVE], [BACKSPACE] and [INSERT]. *)
Definition select_free (inputCommands : list command) : bool :=
  forallb (fun t => negb (is_select t)) inputCommands.

(** The second sample of the source, [selectionQueries]. *)
Definition selectionQueries : list command :=
  [ APPEND "Hello World!"; SELECT 0 5; APPEND "Hi"; SELECT 3 8;
    BACKSPACE None; SELECT 2 2; INSERT " beautiful"; SELECT (-5) 100;
    APPEND "Greetings!" ].

Definition queries : list command :=
  [ APPEND "Hi"; APPEND " there!"; MOVE (-600); MOVE 6;
    BACKSPACE (Some 3); INSERT "Squa" ].

Definition edgeCaseQueries : list command :=
  [ APPEND "Test"; SELECT (-10) 20; INSERT "ABC"; SELECT 1 1; MOVE 2;
    SELECT 0 3; BACKSPACE None ].

Example notepad_queries :
  Notepad.notepad queries = Ok ["Hi"; "Hi there!"; "Hi re!"; "Hi Square!"].
Proof. vm_compute. reflexivity. Qed.

Example notepad_edgeCaseQueries :
  Notepad.notepad edgeCaseQueries = Ok ["Test"; "ABC"; EmptyString].
Proof. vm_compute. reflexivity. Qed.

(** C1. Scenario B: the engine run on [selectionQueries] returns exactly
    the five snapshots "Hello World!", "Hi World!", "Hi !",
    "Hi beautiful !", "Greetings!". *)
Theorem scenario_B_selectionQueries :
  Notepad.notepad selectionQueries
  = Ok ["Hello World!"; "Hi World!"; "Hi !"; "Hi beautiful !"; "Greetings!"].
Proof. vm_compute. reflexivity. Qed.

(** ** Strings and slices *)

Section Strings.

Local Open Scope nat_scope.

Lemma string_length_app (a b : string) :
  String.length (a ++ b) = String.length a + String.length b.
Proof. induction a as [|ch a IH]; simpl; [reflexivity | now rewrite IH]. Qed.

Lemma string_app_assoc (a b c : string) : ((a ++ b) ++ c)%string = (a ++ b ++ c)%string.
Proof. induction a as [|ch a IH]; simpl; [reflexivity | now rewrite IH]. Qed.

Lemma substring_0_0 (s : string) : substring 0 0 s = EmptyString.
Proof. destruct s; reflexivity. Qed.

Lemma length_substring (s : string) :
  forall n m, String.length (substring n m s) = Nat.min m (String.length s - n).
Proof.
  induction s as [|ch s IH]; intros [|n] [|m]; simpl; try reflexivity.
  - now rewrite IH, Nat.sub_0_r.
  - apply IH.
  - apply IH.
Qed.

(** A prefix that is long enough is the whole string. *)
Lemma substring_whole (s : string) :
  forall m, String.length s <= m -> substring 0 m s = s.
Proof.
  induction s as [|ch s IH]; intros [|m] H; simpl in *; try reflexivity; try lia.
  f_equal. apply IH. lia.
Qed.

(** Past the end there is nothing. *)
Lemma substring_past (s : string) :
  forall n m, String.length s <= n -> substring n m s = EmptyString.
Proof.
  induction s as [|ch s IH]; intros [|n] m H; simpl in *;
    try reflexivity; try lia.
  - destruct m; reflexivity.
  - apply IH. lia.
Qed.

(** A string is its prefix followed by the rest. *)
Lemma substring_split (s : string) :
  forall n, (substring 0 n s ++ substring n (String.length s - n) s)%string = s.
Proof.
  induction s as [|ch s IH]; intros [|n]; simpl; try reflexivity.
  - f_equal. apply substring_whole. lia.
  - f_equal. apply IH.
Qed.

Lemma substring_app_l (a b : string) :
  substring 0 (String.length a) (a ++ b) = a.
Proof.
  induction a as [|ch a IH]; simpl; [apply substring_0_0 | now rewrite IH].
Qed.

Lemma substring_app_r (a b : string) :
  forall m, substring (String.length a) m (a ++ b) = substring 0 m b.
Proof. induction a as [|ch a IH]; intro m; simpl; [reflexivity | apply IH]. Qed.

End Strings.

(** [s.slice(0, b)] and [s.slice(a)] for indexes that are not negative. *)
Lemma slice_prefix (s : string) (b : Z) :
  0 <= b -> slice s (Int 0) (Some (Int b)) = substring 0 (Z.to_nat b) s.
Proof.
  intro Hb. unfold slice, relative_index, len; simpl.
  destruct (b <? 0) eqn:Eb; [lia|].
  destruct (Z.min b (Z.of_nat (String.length s)) <=? Z.min 0 (Z.of_nat (String.length s))) eqn:E.
  - apply Z.leb_le in E.
    assert (Hz : b = 0 \/ String.length s = 0%nat) by lia.
    destruct Hz as [-> | Hz]; [now rewrite substring_0_0|].
    destruct s; [|discriminate]. now destruct (Z.to_nat b).
  - apply Z.leb_gt in E. rewrite Z.min_l in E |- * by lia.
    replace (Z.min b (Z.of_nat (String.length s)) - 0)
      with (Z.min b (Z.of_nat (String.length s))) by lia.
    simpl. destruct (Z.le_ge_cases b (Z.of_nat (String.length s))) as [H | H].
    + now rewrite Z.min_l by lia.
    + rewrite Z.min_r by lia. rewrite Nat2Z.id.
      rewrite !substring_whole; [reflexivity | lia | lia].
Qed.

Lemma slice_suffix (s : string) (a : Z) :
  0 <= a ->
  slice s (Int a) None
  = substring (Z.to_nat a) (String.length s - Z.to_nat a) s.
Proof.
  intro Ha. unfold slice, relative_index, len; simpl.
  destruct (a <? 0) eqn:Ea; [lia|].
  destruct (Z.of_nat (String.length s) <=? Z.min a (Z.of_nat (String.length s))) eqn:E.
  - apply Z.leb_le in E. symmetry. apply substring_past. lia.
  - apply Z.leb_gt in E. rewrite Z.min_l by lia.
    f_equal. lia.
Qed.

Lemma length_slice_prefix (s : string) (b : Z) :
  0 <= b <= len s -> len (slice s (Int 0) (Some (Int b))) = b.
Proof.
  intros H. rewrite slice_prefix by lia. unfold len in *.
  rewrite length_substring. lia.
Qed.

Lemma length_slice_suffix (s : string) (a : Z) :
  0 <= a <= len s -> len (slice s (Int a) None) = len s - a.
Proof.
  intros H. rewrite slice_suffix by lia. unfold len in *.
  rewrite length_substring. lia.
Qed.

Lemma len_app (a b : string) : len (a ++ b) = len a + len b.
Proof. unfold len. rewrite string_length_app. lia. Qed.

Lemma len_nonneg (s : string) : 0 <= len s.
Proof. unfold len. lia. Qed.

(** ** The equations of [step] *)

Lemma last_or_empty_push (l : list string) (x : string) :
  last_or_empty (l ++ [x]) = x.
Proof. unfold last_or_empty. apply last_last. Qed.

Lemma nonempty_length (l : list string) :
  l <> [] -> (List.length l =? 0)%nat = false.
Proof. destruct l; [congruence | reflexivity]. Qed.

Section StepEquations.

Variable st : state.
Let cur := current st.

Lemma step_skipped (t : command) :
  resultsArray st = [] -> originates t = false -> is_select t = false ->
  step st t = Ok (warn (skip_message t) st).
Proof.
  intros E Ho Hs. unfold step, skipped. rewrite E.
  destruct t; simpl in *; try discriminate; reflexivity.
Qed.

Lemma step_SELECT (value rightPos : Z) :
  step st (SELECT value rightPos)
  = Ok (if clampPosition value (len cur) =? clampPosition rightPos (len cur)
        then mkState (resultsArray st) (Int (clampPosition value (len cur)))
               None (console st)
        else mkState (resultsArray st) (Int (clampPosition rightPos (len cur)))
               (Some (mkRange (clampPosition value (len cur))
                              (clampPosition rightPos (len cur))))
               (console st)).
Proof.
  unfold step, skipped, cur, current. simpl.
  destruct (_ =? _); reflexivity.
Qed.

Lemma step_replace_APPEND (r : range) (value : string) :
  selection st = Some r ->
  step st (APPEND value)
  = Ok (mkState
          (resultsArray st
           ++ [slice cur (Int 0) (Some (Int (start r))) ++ value
               ++ slice cur (Int (end_ r)) None])
          (Int (start r + len value)) None (console st)).
Proof.
  intro E. unfold step, skipped, selection_start, selection_end, cur, current.
  simpl. rewrite E. reflexivity.
Qed.

Lemma step_replace_INSERT (r : range) (value : string) :
  selection st = Some r ->
  step st (INSERT value)
  = Ok (mkState
          (resultsArray st
           ++ [slice cur (Int 0) (Some (Int (start r))) ++ value
               ++ slice cur (Int (end_ r)) None])
          (Int (start r + len value)) None (console st)).
Proof.
  intro E. unfold step, skipped, selection_start, selection_end, cur, current.
  simpl. rewrite E. reflexivity.
Qed.

Lemma step_delete_selection (r : range) (value : option Z) :
  selection st = Some r -> resultsArray st <> [] ->
  step st (BACKSPACE value)
  = Ok (mkState
          (resultsArray st
           ++ [slice cur (Int 0) (Some (Int (start r)))
               ++ slice cur (Int (end_ r)) None])
          (Int (start r)) None (console st)).
Proof.
  intros E Hne.
  unfold step, skipped, selection_start, selection_end, cur, current.
  rewrite (nonempty_length _ Hne). simpl. rewrite E. reflexivity.
Qed.

Lemma step_APPEND (value : string) :
  selection st = None ->
  step st (APPEND value)
  = Ok (mkState (resultsArray st ++ [cur ++ value])
          (Int (len (cur ++ value))) None (console st)).
Proof.
  intro E. unfold step, skipped, cur, current. simpl. rewrite E.
  unfold ret, push, set_cursor; simpl. rewrite E. reflexivity.
Qed.

Lemma step_MOVE (value : Z) :
  resultsArray st <> [] ->
  step st (MOVE value)
  = Ok (mkState (resultsArray st)
          (if lt (add (cursor st) (Int value)) (Int 0) then Int 0
           else if gt (add (cursor st) (Int value)) (Int (len cur))
                then Int (len cur)
                else add (cursor st) (Int value))
          None (console st)).
Proof.
  intro Hne. unfold step, skipped, cur, current.
  rewrite (nonempty_length _ Hne). simpl.
  destruct (add (cursor st) (Int value)) as [y|]; simpl; [|reflexivity].
  destruct (y <? 0); [reflexivity|].
  destruct (len (last_or_empty (resultsArray st)) <? y); reflexivity.
Qed.

Lemma step_BACKSPACE (value : option Z) :
  selection st = None -> resultsArray st <> [] ->
  step st (BACKSPACE value)
  = Ok (mkState
          (resultsArray st
           ++ [slice cur (Int 0)
                 (Some (Math_max (Int 0) (sub (cursor st) (ToNumber value))))
               ++ slice cur (cursor st) None])
          (Math_max (Int 0) (sub (cursor st) (ToNumber value)))
          None (console st)).
Proof.
  intros E Hne. unfold step, skipped, cur, current.
  rewrite (nonempty_length _ Hne). simpl. rewrite E.
  unfold ret, push, set_cursor; simpl. rewrite E. reflexivity.
Qed.

Lemma step_INSERT_first (value : string) :
  selection st = None -> resultsArray st = [] ->
  step st (INSERT value)
  = Ok (mkState [value] (Int (len value)) None (console st)).
Proof.
  intros E Hnil. unfold step, skipped. simpl. rewrite E, Hnil. simpl.
  unfold ret, push, set_cursor; simpl. rewrite E, Hnil. reflexivity.
Qed.

Lemma step_INSERT (value : string) :
  selection st = None -> resultsArray st <> [] ->
  step st (INSERT value)
  = Ok (mkState
          (resultsArray st
           ++ [slice cur (Int 0) (Some (cursor st)) ++ value
               ++ slice cur (cursor st) None])
          (add (cursor st) (Int (len value))) None (console st)).
Proof.
  intros E Hne. unfold step, skipped, cur, current. simpl. rewrite E.
  rewrite (nonempty_length _ Hne). simpl.
  unfold ret, push, set_cursor; simpl. rewrite E. reflexivity.
Qed.

End StepEquations.

(** ** Case analysis on a step *)

Lemma log_empty_dec (l : list string) : {l = []} + {l <> []}.
Proof. destruct l; [left; reflexivity | right; discriminate]. Defined.

(** Splits on the selection, on the log and on the command, and rewrites
    [step st t] with the equation of the case. *)
Ltac step_cases st t :=
  let r := fresh "r" in
  let Es := fresh "Esel" in
  let El := fresh "Elog" in
  destruct (selection st) as [r|] eqn:Es;
  destruct (log_empty_dec (resultsArray st)) as [El|El];
  destruct t;
  first [ rewrite (step_SELECT st)
        | rewrite (step_replace_APPEND st r _ Es)
        | rewrite (step_replace_INSERT st r _ Es)
        | rewrite (step_delete_selection st r _ Es El)
        | rewrite (step_APPEND st _ Es)
        | rewrite (step_MOVE st _ El)
        | rewrite (step_BACKSPACE st _ Es El)
        | rewrite (step_INSERT_first st _ Es El)
        | rewrite (step_INSERT st _ Es El)
        | rewrite (step_skipped st (MOVE _) El eq_refl eq_refl)
        | rewrite (step_skipped st (BACKSPACE _) El eq_refl eq_refl) ].

Lemma push_not_empty (l : list string) (x : string) : (l ++ [x])%list <> [].
Proof. destruct l; discriminate. Qed.

Lemma step_total (st : state) (t : command) : exists st', step st t = Ok st'.
Proof. step_cases st t; eexists; reflexivity. Qed.

Lemma forEach_total (inputCommands : list command) :
  forall st, exists st', forEach inputCommands st = Ok st'.
Proof.
  induction inputCommands as [|t rest IH]; intro st; simpl.
  - now exists st.
  - destruct (step_total st t) as [st1 E]. rewrite E. simpl. apply IH.
Qed.

(** A property that every step keeps holds all along a run. *)
Lemma forEach_preserves (P : state -> Prop) :
  (forall st t st', P st -> step st t = Ok st' -> P st') ->
  forall inputCommands st st',
    P st -> forEach inputCommands st = Ok st' -> P st'.
Proof.
  intros Hstep. induction inputCommands as [|t rest IH]; intros st st' HP H;
    simpl in H.
  - injection H as <-. exact HP.
  - destruct (step st t) as [st1|e] eqn:E; simpl in H; [|discriminate].
    eapply IH; [|exact H]. eapply Hstep; eassumption.
Qed.

(** The log only grows, by at most one snapshot a step. *)
Lemma step_log_length (st st' : state) (t : command) :
  step st t = Ok st' ->
  (List.length (resultsArray st) <= List.length (resultsArray st')
   <= S (List.length (resultsArray st)))%nat.
Proof.
  step_cases st t; intro H; injection H as <-; simpl;
    try rewrite List.length_app; simpl;
    try match goal with E : resultsArray st = [] |- _ => rewrite E; simpl end;
    try lia;
    destruct (_ =? _); simpl; lia.
Qed.

Lemma forEach_log_length (inputCommands : list command) :
  forall st st', forEach inputCommands st = Ok st' ->
    (List.length (resultsArray st') 
     <= List.length (resultsArray st) + List.length inputCommands)%nat.
Proof.
  induction inputCommands as [|t rest IH]; intros st st' H; simpl in H.
  - injection H as <-. simpl. lia.
  - destruct (step st t) as [st1|e] eqn:E; simpl in H; [|discriminate].
    apply IH in H. apply step_log_length in E. simpl. lia.
Qed.

(** ** Before any content: cursor at 0 and no selection *)

Lemma clampPosition_0 (pos : Z) : clampPosition pos 0 = 0.
Proof. unfold clampPosition. lia. Qed.

Lemma len_current_empty (st : state) :
  resultsArray st = [] -> len (current st) = 0.
Proof. unfold current. now intros ->. Qed.

Lemma step_blank (st : state) (t : command) (st' : state) :
  blank st -> step st t = Ok st' -> blank st'.
Proof.
  unfold blank. intro Hb.
  step_cases st t; intro H; injection H as <-;
    try destruct (clampPosition _ _ =? clampPosition _ _) eqn:Ec;
    simpl; intro Hnil;
    try (now apply push_not_empty in Hnil);
    try contradiction; try discriminate;
    destruct (Hb Hnil) as [Hc Hs]; try discriminate;
    try (split; assumption);
    rewrite (len_current_empty st Hnil), ?clampPosition_0 in *;
    try discriminate; split; reflexivity.
Qed.

Lemma reachable_blank (st : state) : reachable st -> blank st.
Proof.
  intros [inputCommands H].
  eapply (forEach_preserves blank); [exact step_blank | | exact H].
  intros _. split; reflexivity.
Qed.

(** ** No position is negative *)

Lemma step_not_negative (st : state) (t : command) (st' : state) :
  not_negative st -> step st t = Ok st' -> not_negative st'.
Proof.
  unfold not_negative. intros [Hc Hs].
  pose proof (len_nonneg (current st)) as Hn.
  destruct t as [value|value|value|value|value rightPos].
  - (* APPEND *)
    destruct (selection st) as [r|] eqn:Es.
    + rewrite (step_replace_APPEND st r value Es).
      intro H; injection H as <-. simpl.
      pose proof (len_nonneg value). split; [lia | exact I].
    + rewrite (step_APPEND st value Es).
      intro H; injection H as <-. simpl. split; [apply len_nonneg | exact I].
  - (* MOVE *)
    destruct (log_empty_dec (resultsArray st)) as [Hnil|Hne].
    + rewrite (step_skipped st (MOVE value) Hnil eq_refl eq_refl).
      intro H; injection H as <-. simpl. split; assumption.
    + rewrite (step_MOVE st value Hne).
      intro H; injection H as <-. simpl. split; [|exact I].
      destruct (cursor st) as [c|]; simpl; [|exact I].
      destruct (c + value <? 0) eqn:E1; [lia|].
      apply Z.ltb_ge in E1.
      destruct (len (current st) <? c + value); [exact Hn | exact E1].
  - (* BACKSPACE *)
    destruct (log_empty_dec (resultsArray st)) as [Hnil|Hne].
    + rewrite (step_skipped st (BACKSPACE value) Hnil eq_refl eq_refl).
      intro H; injection H as <-. simpl. split; assumption.
    + destruct (selection st) as [r|] eqn:Es.
      * rewrite (step_delete_selection st r value Es Hne).
        intro H; injection H as <-. simpl. split; [exact Hs | exact I].
      * rewrite (step_BACKSPACE st value Es Hne).
        intro H; injection H as <-. simpl. split; [|exact I].
        destruct (cursor st) as [c|], value as [k|]; simpl;
          first [exact I | lia].
  - (* INSERT *)
    destruct (selection st) as [r|] eqn:Es.
    + rewrite (step_replace_INSERT st r value Es).
      intro H; injection H as <-. simpl.
      pose proof (len_nonneg value). split; [lia | exact I].
    + destruct (log_empty_dec (resultsArray st)) as [Hnil|Hne].
      * rewrite (step_INSERT_first st value Es Hnil).
        intro H; injection H as <-. simpl. split; [apply len_nonneg | exact I].
      * rewrite (step_INSERT st value Es Hne).
        intro H; injection H as <-. simpl. split; [|exact I].
        pose proof (len_nonneg value).
        destruct (cursor st) as [c|]; simpl; [lia | exact I].
  - (* SELECT *)
    rewrite step_SELECT. intro H; injection H as <-.
    destruct (_ =? _); simpl; (split; [|try exact I]);
      unfold clampPosition; lia.
Qed.

(** X5. In every reachable state the cursor is [NaN] or at least 0, and
    a selection starts at 0 or later: no position is ever negative. *)
Lemma reachable_not_negative (st : state) : reachable st -> not_negative st.
Proof.
  intros [inputCommands H].
  eapply (forEach_preserves not_negative); [exact step_not_negative | | exact H].
  split; [simpl; lia | exact I].
Qed.

(** ** SELECT *)

Lemma clampPosition_clamped (pos n : Z) :
  0 <= n -> clamped pos n (clampPosition pos n).
Proof. unfold clamped, clampPosition. lia. Qed.

(** C4. For every [SELECT left right] with [left <= right], in any state:
    both bounds are clamped, each on its own, into [0 .. length(current)];
    no snapshot is appended; when the clamped bounds are equal the
    selection becomes none and the cursor that value; otherwise the
    selection becomes the two clamped bounds, with
    [0 <= start <= end <= length(current)], and the cursor the clamped
    right bound.  With both bounds beyond the length of the buffer the
    selection is none and the cursor is at the end of the buffer. *)
Theorem select_clamps_both_bounds (st : state) (leftPos rightPos : Z) :
  leftPos <= rightPos ->
  let n := len (current st) in
  let l := clampPosition leftPos n in
  let r := clampPosition rightPos n in
  clamped leftPos n l /\ clamped rightPos n r /\
  exists st',
    step st (SELECT leftPos rightPos) = Ok st' /\
    resultsArray st' = resultsArray st /\
    (l = r -> selection st' = None /\ cursor st' = Int l) /\
    (l <> r ->
     selection st' = Some (mkRange l r) /\ cursor st' = Int r /\
     0 <= l /\ l <= r /\ r <= n) /\
    (n <= leftPos -> selection st' = None /\ cursor st' = Int n).
Proof.
  intros Hle n l r.
  assert (Hn : 0 <= n) by apply len_nonneg.
  split; [now apply clampPosition_clamped|].
  split; [now apply clampPosition_clamped|].
  rewrite step_SELECT. fold n l r.
  destruct (l =? r) eqn:E; eexists; (split; [reflexivity|]); simpl.
  - apply Z.eqb_eq in E.
    split; [reflexivity|].
    split; [intros _; split; reflexivity|].
    split; [intro; contradiction|].
    intros Hpast. split; [reflexivity|].
    f_equal. unfold l, clampPosition. lia.
  - apply Z.eqb_neq in E.
    split; [reflexivity|].
    split; [intro; contradiction|].
    split.
    + intros _. repeat split; unfold l, r, clampPosition; lia.
    + intros Hpast. exfalso. unfold l, r, clampPosition in E. lia.
Qed.

Lemma select_clamps_both_bounds_witness :
  0 <= 5 /\
  exists st', step hello (SELECT 0 5) = Ok st' /\
              selection st' = Some (mkRange 0 5) /\ cursor st' = Int 5.
Proof.
  split; [lia|].
  destruct (select_clamps_both_bounds hello 0 5) as (_ & _ & st' & E & _ & _ & Hne & _);
    [lia|].
  exists st'. split; [exact E|].
  destruct Hne as (Hs & Hc & _); [vm_compute; discriminate|].
  split; assumption.
Defined.

(** ** The guard on an empty log *)

(** C5. Whenever the log is empty when a [MOVE], [BACKSPACE] or [SELECT]
    is processed, the command returns normally, appends no snapshot and
    leaves the buffer, the cursor and the selection as they were. *)
Theorem empty_log_commands_are_noops
    (inputCommands : list command) (st : state) (t : command) :
  forEach inputCommands init = Ok st ->
  resultsArray st = [] ->
  originates t = false ->
  exists st',
    step st t = Ok st' /\
    resultsArray st' = [] /\ current st' = current st /\
    cursor st' = cursor st /\ selection st' = selection st.
Proof.
  intros Hrun Hnil Ho.
  destruct (reachable_blank st (ex_intro _ inputCommands Hrun) Hnil) as [Hc Hs].
  destruct t as [v|v|v|v|l r]; try discriminate.
  - rewrite (step_skipped st (MOVE v) Hnil eq_refl eq_refl).
    eexists; split; [reflexivity|]. simpl. now rewrite Hnil.
  - rewrite (step_skipped st (BACKSPACE v) Hnil eq_refl eq_refl).
    eexists; split; [reflexivity|]. simpl. now rewrite Hnil.
  - rewrite step_SELECT, (len_current_empty st Hnil), !clampPosition_0.
    eexists; split; [reflexivity|]. simpl.
    unfold current; simpl. now rewrite Hnil, Hc, Hs.
Qed.

Lemma empty_log_commands_are_noops_witness :
  exists st',
    step (warn (skip_message (MOVE 4)) init) (SELECT 3 7) = Ok st' /\
    resultsArray st' = [] /\
    current st' = current (warn (skip_message (MOVE 4)) init) /\
    cursor st' = Int 0 /\ selection st' = None.
Proof.
  apply (empty_log_commands_are_noops [MOVE 4]
           (warn (skip_message (MOVE 4)) init) (SELECT 3 7));
    reflexivity.
Defined.

(** ** MOVE *)

(** C7. [MOVE 0] never changes the content of the buffer and never
    appends a snapshot, whatever the state. *)
Theorem move_zero_keeps_content (st : state) :
  exists st',
    step st (MOVE 0) = Ok st' /\
    resultsArray st' = resultsArray st /\ current st' = current st.
Proof.
  destruct (log_empty_dec (resultsArray st)) as [Hnil | Hne].
  - rewrite (step_skipped st (MOVE 0) Hnil eq_refl eq_refl).
    eexists; split; [reflexivity|]. split; reflexivity.
  - rewrite (step_MOVE st 0 Hne).
    eexists; split; [reflexivity|]. split; reflexivity.
Qed.

(** ** Leaving the selection *)

(** C8. In every reachable state, a command other than [SELECT] leaves
    the engine with no selection: a selection is only ever entered by a
    [SELECT]. *)
Theorem only_select_selects
    (inputCommands : list command) (st : state) (t : command) :
  forEach inputCommands init = Ok st ->
  is_select t = false ->
  exists st', step st t = Ok st' /\ selection st' = None.
Proof.
  intros Hrun Hs.
  pose proof (reachable_blank st (ex_intro _ inputCommands Hrun)) as Hb.
  step_cases st t; try discriminate;
    try match goal with
        | E : resultsArray st = [] |- _ => destruct (Hb E); congruence
        end;
    eexists; (split; [reflexivity|]); simpl; solve [reflexivity | assumption].
Qed.

Lemma only_select_selects_witness :
  exists st',
    step (mkState ["Hello World!"] (Int 5) (Some (mkRange 0 5)) []) (MOVE 1) = Ok st'
    /\ selection st' = None.
Proof.
  apply (only_select_selects [APPEND "Hello World!"; SELECT 0 5]); reflexivity.
Defined.

(** ** Totality *)

(** The model can throw: [selection.start] with nothing selected. *)
Example selection_start_of_null_throws :
  selection_start init
  = Throw (TypeError "Cannot read properties of null (reading 'start')").
Proof. reflexivity. Qed.

(** ** The texts that the commands build *)

Lemma replace_length (cur value : string) (s e : Z) :
  0 <= s <= len cur -> 0 <= e <= len cur ->
  len (slice cur (Int 0) (Some (Int s)) ++ value ++ slice cur (Int e) None)
  = s + len value + (len cur - e).
Proof.
  intros Hs He.
  rewrite !len_app, length_slice_prefix, length_slice_suffix by assumption.
  lia.
Qed.

Lemma delete_length (cur : string) (s e : Z) :
  0 <= s <= len cur -> 0 <= e <= len cur ->
  len (slice cur (Int 0) (Some (Int s)) ++ slice cur (Int e) None)
  = s + (len cur - e).
Proof.
  intros Hs He.
  rewrite len_app, length_slice_prefix, length_slice_suffix by assumption.
  reflexivity.
Qed.

(** Cutting a text at [c] and gluing the two parts gives it back. *)
Lemma slice_split (cur : string) (c : Z) :
  0 <= c ->
  (slice cur (Int 0) (Some (Int c)) ++ slice cur (Int c) None)%string = cur.
Proof.
  intro Hc. rewrite slice_prefix, slice_suffix by assumption.
  apply substring_split.
Qed.

(** Inserting [value] at [c], then deleting the [len value] characters
    before [c + len value]. *)
Lemma insert_then_delete (cur value : string) (c : Z) :
  0 <= c <= len cur ->
  let new :=
    (slice cur (Int 0) (Some (Int c)) ++ value ++ slice cur (Int c) None)%string in
  (slice new (Int 0) (Some (Int c)) ++ slice new (Int (c + len value)) None)%string
  = cur.
Proof.
  intros Hc new.
  pose proof (length_slice_prefix cur c Hc) as HA.
  pose proof (len_nonneg value) as Hv.
  set (A := slice cur (Int 0) (Some (Int c))) in *.
  set (B := slice cur (Int c) None) in *.
  assert (EA : Z.to_nat c = String.length A) by (unfold len in HA; lia).
  assert (E1 : slice new (Int 0) (Some (Int c)) = A).
  { rewrite slice_prefix by lia. rewrite EA. apply substring_app_l. }
  assert (E2 : slice new (Int (c + len value)) None = B).
  { rewrite slice_suffix by lia. unfold new.
    replace (Z.to_nat (c + len value)) with (String.length (A ++ value)).
    - rewrite <- string_app_assoc. rewrite substring_app_r.
      apply substring_whole. rewrite !string_length_app. lia.
    - rewrite string_length_app. unfold len in *. lia. }
  rewrite E1, E2. unfold A, B. apply slice_split. lia.
Qed.

(** ** BACKSPACE by count *)

Example backspace_without_count :
  step ab (BACKSPACE None) = Ok (mkState ["ab"; EmptyString] NaN None [])
  /\ step ab (BACKSPACE (Some 1)) = Ok (mkState ["ab"; "a"] (Int 1) None []).
Proof. split; reflexivity. Qed.

(** C2, as stated, fails: after [APPEND "ab"], a [BACKSPACE] without
    count does not do what [BACKSPACE 1] does. *)
Lemma backspace_count_has_no_default :
  ~ (forall st : state,
       reachable st -> resultsArray st <> [] -> selection st = None ->
       step st (BACKSPACE None) = step st (BACKSPACE (Some 1))).
Proof.
  intro H.
  assert (Hab : reachable ab) by (exists [APPEND "ab"]; reflexivity).
  specialize (H ab Hab ltac:(discriminate) eq_refl).
  vm_compute in H. discriminate H.
Qed.

(** C2, amended. In every state with a non-empty log, no selection and
    the cursor at an integer [c >= 0], a [BACKSPACE] whose count is
    given (so [BACKSPACE 1] too) appends
    [current[0:max(0, c - count)] + current[c:]] to the log and moves
    the cursor to [max(0, c - count)], for [c], [count] and [c - count]
    safe integers (where the subtraction of the code is exact). *)
Theorem backspace_with_count (st : state) (c count : Z) :
  resultsArray st <> [] -> selection st = None ->
  cursor st = Int c -> 0 <= c ->
  safe c -> safe count -> safe (c - count) ->
  step st (BACKSPACE (Some count))
  = Ok (mkState
          (resultsArray st
           ++ [upto (Z.max 0 (c - count)) (current st) ++ from c (current st)])
          (Int (Z.max 0 (c - count))) None (console st)).
Proof.
  intros Hne Hs Hc Hpos _ _ _.
  rewrite (step_BACKSPACE st (Some count) Hs Hne), Hc. simpl.
  rewrite slice_prefix, slice_suffix by lia. reflexivity.
Qed.

Lemma backspace_with_count_witness :
  step ab (BACKSPACE (Some 1)) = Ok (mkState ["ab"; "a"] (Int 1) None []).
Proof.
  apply (backspace_with_count ab 2 1);
    [discriminate | reflexivity | reflexivity | lia | | | ];
    unfold safe, MAX_SAFE_INTEGER; simpl; lia.
Defined.

(** ** The cursor stays in the buffer *)

Lemma well_formed_push (log : list string) (x : string) (c : Z) (out : list string) :
  0 <= c <= len x -> well_formed (mkState (log ++ [x]) (Int c) None out).
Proof.
  intro H. split; [|exact I].
  exists c. split; [reflexivity|].
  unfold current; simpl. now rewrite last_or_empty_push.
Qed.

Lemma well_formed_SELECT (st : state) (value rightPos : Z) :
  exists st', step st (SELECT value rightPos) = Ok st' /\ well_formed st'.
Proof.
  rewrite step_SELECT. eexists; split; [reflexivity|].
  pose proof (len_nonneg (current st)) as Hn.
  destruct (_ =? _); (split; [eexists; split; [reflexivity|] |]);
    unfold selection_in_bounds, current, clampPosition in *; simpl; lia.
Qed.

Lemma well_formed_replace (st : state) (r : range) (value : string) :
  well_formed st -> selection st = Some r ->
  well_formed
    (mkState
       (resultsArray st
        ++ [slice (current st) (Int 0) (Some (Int (start r))) ++ value
            ++ slice (current st) (Int (end_ r)) None])
       (Int (start r + len value)) None (console st)).
Proof.
  intros [_ Hsel] E. unfold selection_in_bounds in Hsel. rewrite E in Hsel.
  destruct Hsel as [Hs He].
  apply well_formed_push. rewrite replace_length by assumption.
  pose proof (len_nonneg value). lia.
Qed.

Lemma well_formed_step (st : state) (t : command) :
  well_formed st -> counted st t = true ->
  exists st', step st t = Ok st' /\ well_formed st'.
Proof.
  intros Hwf Hcount.
  destruct t as [value|value|value|value|value rightPos];
    [ | | | | apply well_formed_SELECT ].
  - (* APPEND *)
    destruct (selection st) as [r|] eqn:Es.
    + rewrite (step_replace_APPEND st r value Es).
      eexists; split; [reflexivity|]. now apply well_formed_replace.
    + rewrite (step_APPEND st value Es).
      eexists; split; [reflexivity|]. apply well_formed_push.
      pose proof (len_nonneg (current st ++ value)). lia.
  - (* MOVE *)
    destruct (log_empty_dec (resultsArray st)) as [Hnil|Hne].
    + rewrite (step_skipped st (MOVE value) Hnil eq_refl eq_refl).
      eexists; split; [reflexivity|]. exact Hwf.
    + rewrite (step_MOVE st value Hne).
      eexists; split; [reflexivity|]. split; [|exact I].
      destruct Hwf as [(c & Hc & Hb) _]. rewrite Hc.
      unfold cursor_in_bounds, current in *; simpl.
      destruct (c + value <? 0) eqn:E1;
        [eexists; split; [reflexivity | lia]|].
      destruct (len (last_or_empty (resultsArray st)) <? c + value) eqn:E2;
        (eexists; split; [reflexivity | lia]).
  - (* BACKSPACE *)
    destruct (log_empty_dec (resultsArray st)) as [Hnil|Hne].
    + rewrite (step_skipped st (BACKSPACE value) Hnil eq_refl eq_refl).
      eexists; split; [reflexivity|]. exact Hwf.
    + destruct (selection st) as [r|] eqn:Es.
      * rewrite (step_delete_selection st r value Es Hne).
        eexists; split; [reflexivity|].
        destruct Hwf as [_ Hsel]. unfold selection_in_bounds in Hsel.
        rewrite Es in Hsel. destruct Hsel as [Hs He].
        apply well_formed_push. rewrite delete_length by assumption. lia.
      * rewrite (step_BACKSPACE st value Es Hne).
        eexists; split; [reflexivity|].
        unfold counted in Hcount. rewrite Es, (nonempty_length _ Hne) in Hcount.
        simpl in Hcount. destruct value as [k|]; [|discriminate].
        apply Z.leb_le in Hcount.
        destruct Hwf as [(c & Hc & Hb) _]. rewrite Hc. simpl.
        apply well_formed_push.
        rewrite len_app, length_slice_prefix, length_slice_suffix by lia. lia.
  - (* INSERT *)
    destruct (selection st) as [r|] eqn:Es.
    + rewrite (step_replace_INSERT st r value Es).
      eexists; split; [reflexivity|]. now apply well_formed_replace.
    + destruct (log_empty_dec (resultsArray st)) as [Hnil|Hne].
      * rewrite (step_INSERT_first st value Es Hnil).
        eexists; split; [reflexivity|].
        apply (well_formed_push [] value). pose proof (len_nonneg value). lia.
      * rewrite (step_INSERT st value Es Hne).
        eexists; split; [reflexivity|].
        destruct Hwf as [(c & Hc & Hb) _]. rewrite Hc. simpl.
        apply well_formed_push.
        rewrite !len_app, length_slice_prefix, length_slice_suffix by lia.
        pose proof (len_nonneg value). lia.
Qed.

Lemma well_formed_init : well_formed init.
Proof.
  split; [|exact I]. exists 0. split; [reflexivity|]. vm_compute.
  split; discriminate.
Qed.

Lemma well_formed_run (p q : list command) :
  forall st, well_formed st -> counted_run st (p ++ q) = true ->
    exists st', forEach p st = Ok st' /\ well_formed st'.
Proof.
  induction p as [|t p IH]; intros st Hwf Hrun; simpl in *.
  - now exists st.
  - apply andb_prop in Hrun. destruct Hrun as [Hc Hrun].
    destruct (well_formed_step st t Hwf Hc) as (st1 & E & Hwf1).
    rewrite E in *. simpl. now apply IH.
Qed.

(** C3, as stated, fails: a negative count takes the cursor past the
    end of the buffer. *)
Lemma negative_count_moves_cursor_out :
  ~ (forall (inputCommands : list command) (st : state),
       forEach inputCommands init = Ok st -> cursor_in_bounds st).
Proof.
  intro H.
  destruct (H [APPEND "ab"; BACKSPACE (Some (-3))] ab_overshoot eq_refl)
    as (c & Hc & Hb).
  injection Hc as <-. vm_compute in Hb. destruct Hb as [_ Hb].
  apply Hb. reflexivity.
Qed.

Example omitted_count_loses_cursor :
  forEach [APPEND "ab"; BACKSPACE None] init
  = Ok (mkState ["ab"; EmptyString] NaN None []).
Proof. reflexivity. Qed.

(** C3, amended. Along every run in which each [BACKSPACE] that deletes
    by count (no selection, a non-empty log) has its count given and not
    negative, [0 <= cursor <= length(current buffer)] holds after each
    command, whatever the other integers. *)
Theorem cursor_stays_in_bounds (done rest : list command) :
  counted_run init (done ++ rest) = true ->
  exists st, forEach done init = Ok st /\ cursor_in_bounds st.
Proof.
  intro Hrun.
  destruct (well_formed_run done rest init well_formed_init Hrun)
    as (st & E & Hwf & _).
  now exists st.
Qed.

Lemma cursor_stays_in_bounds_witness :
  exists st,
    forEach [APPEND "Hello World!"; SELECT 0 5; APPEND "Hi"; SELECT 3 8;
             BACKSPACE None; MOVE (-600)] init = Ok st
    /\ cursor_in_bounds st.
Proof.
  apply (cursor_stays_in_bounds
           [APPEND "Hello World!"; SELECT 0 5; APPEND "Hi"; SELECT 3 8;
            BACKSPACE None; MOVE (-600)]
           [MOVE 6; BACKSPACE (Some 3); INSERT "Squa"]).
  reflexivity.
Defined.

(** ** INSERT then BACKSPACE *)

(** C6, as stated, fails: once the cursor is past the end of the buffer
    (after [APPEND "ab"; BACKSPACE -3]), [INSERT "x"] then [BACKSPACE 1]
    leaves "abx", not "ab". *)
Lemma round_trip_fails_past_the_end :
  ~ (forall (st st1 st2 : state) (s : string),
       reachable st -> selection st = None ->
       step st (INSERT s) = Ok st1 ->
       step st1 (BACKSPACE (Some (len s))) = Ok st2 ->
       current st2 = current st).
Proof.
  intro H.
  assert (Hr : reachable ab_overshoot)
    by (exists [APPEND "ab"; BACKSPACE (Some (-3))]; reflexivity).
  specialize (H ab_overshoot
                (mkState ["ab"; "ab"; "abx"] (Int 6) None [])
                (mkState ["ab"; "ab"; "abx"; "abx"] (Int 5) None [])
                "x" Hr eq_refl eq_refl eq_refl).
  vm_compute in H. discriminate H.
Qed.

(** C6, amended. In every state with no selection whose cursor lies in
    the buffer ([0 <= cursor <= length(current)]), [INSERT s] followed at
    once by [BACKSPACE (length s)] restores the buffer: the snapshot that
    the [BACKSPACE] appends is the text that was current before the
    [INSERT]. *)
Theorem insert_then_backspace_restores (st : state) (s : string) :
  selection st = None -> cursor_in_bounds st ->
  exists st1 st2,
    step st (INSERT s) = Ok st1 /\
    step st1 (BACKSPACE (Some (len s))) = Ok st2 /\
    resultsArray st2 = (resultsArray st1 ++ [current st])%list /\
    current st2 = current st.
Proof.
  intros Hs (c & Hc & Hb).
  assert (Hlast : forall log x cur out,
             current (mkState (log ++ [x]) cur None out) = x)
    by (intros; unfold current; simpl; apply last_or_empty_push).
  destruct (log_empty_dec (resultsArray st)) as [Hnil|Hne].
  - (* the first content *)
    rewrite (step_INSERT_first st s Hs Hnil).
    eexists; eexists; split; [reflexivity|].
    rewrite step_BACKSPACE by (simpl; first [reflexivity | discriminate]).
    change (current (mkState [s] (Int (len s)) None (console st))) with s.
    cbn [cursor resultsArray console sub ToNumber Math_max].
    replace (Z.max 0 (len s - len s)) with 0 by lia.
    assert (E : (slice s (Int 0) (Some (Int 0)) ++ slice s (Int (len s)) None)%string
                = current st).
    { unfold current. rewrite Hnil. simpl.
      rewrite slice_prefix, slice_suffix by (pose proof (len_nonneg s); lia).
      rewrite substring_0_0. simpl. apply substring_past. unfold len. lia. }
    rewrite E. split; [reflexivity|].
    split; [reflexivity|]. apply (Hlast [s]).
  - rewrite (step_INSERT st s Hs Hne), Hc.
    eexists; eexists; split; [reflexivity|].
    rewrite step_BACKSPACE by (simpl; first [reflexivity | apply push_not_empty]).
    rewrite !Hlast. simpl.
    replace (Z.max 0 (c + len s - len s)) with c by lia.
    rewrite (insert_then_delete (current st) s c Hb).
    split; [reflexivity|]. split; [reflexivity|].
    first [reflexivity | apply Hlast].
Qed.

Lemma insert_then_backspace_restores_witness :
  exists st1 st2,
    step hello (INSERT ", dear") = Ok st1 /\
    step st1 (BACKSPACE (Some (len ", dear"))) = Ok st2 /\
    resultsArray st2 = (resultsArray st1 ++ [current hello])%list /\
    current st2 = current hello.
Proof.
  apply (insert_then_backspace_restores hello ", dear"); [reflexivity|].
  exists 12. split; [reflexivity|]. vm_compute. split; discriminate.
Defined.

(** ** The two notepads *)

(** C10. The two [notepad] functions differ on a list without [SELECT]:
    after [APPEND "Hi"] the cursor is at 2, the end of the text;
    [MOVE 0] of [src/index.js] takes it back to 1, so that [INSERT "x"]
    gives "Hxi" there and "Hix" in the notepad with selection. *)
Theorem index_js_move_stops_one_short :
  select_free [APPEND "Hi"; MOVE 0; INSERT "x"] = true /\
  IndexJs.notepad [APPEND "Hi"; MOVE 0; INSERT "x"] = Ok ["Hi"; "Hxi"] /\
  Notepad.notepad [APPEND "Hi"; MOVE 0; INSERT "x"] = Ok ["Hi"; "Hix"].
Proof. repeat split. Qed.

(** The missing lower bound of [BACKSPACE] in [src/index.js]: a count
    larger than the cursor makes the first slice count from the end. *)
Example index_js_backspace_counts_from_the_end :
  IndexJs.notepad [APPEND "Hi there!"; MOVE (-3); BACKSPACE (Some 8)]
  = Ok ["Hi there!"; "Hi therre!"]
  /\ Notepad.notepad [APPEND "Hi there!"; MOVE (-3); BACKSPACE (Some 8)]
     = Ok ["Hi there!"; "re!"].
Proof. split; reflexivity. Qed.

Example index_js_queries :
  IndexJs.notepad queries = Ok ["Hi"; "Hi there!"; "Hi re!"; "Hi Square!"].
Proof. reflexivity. Qed.

(** What the two notepads do share: on [APPEND] and [INSERT] alone they
    return the same snapshots. *)
Lemma slice_to_length (s : string) (a : number) :
  slice s a (Some (Int (len s))) = slice s a None.
Proof.
  unfold slice, relative_index; simpl.
  pose proof (len_nonneg s) as H.
  destruct (len s <? 0) eqn:E; [lia|].
  now rewrite Z.min_id.
Qed.

Lemma in_step_step (old : IndexJs.state) (st : state) (t : command) :
  in_step old st -> originates t = true ->
  exists old' st',
    IndexJs.step old t = Ok old' /\ step st t = Ok st' /\ in_step old' st'.
Proof.
  intros (Hlog & Hcur & Hsel) Ho.
  destruct t as [value|value|value|value|l r]; try discriminate.
  - rewrite (step_APPEND st value Hsel).
    unfold IndexJs.step; simpl. rewrite Hlog.
    eexists; eexists; split; [reflexivity|]. split; [reflexivity|].
    repeat split; simpl; rewrite ?Hlog, ?Hcur; reflexivity.
  - unfold IndexJs.step; simpl. rewrite Hlog.
    destruct (log_empty_dec (resultsArray st)) as [Hnil|Hne].
    + rewrite (step_INSERT_first st value Hsel Hnil), Hnil. simpl.
      eexists; eexists; split; [reflexivity|]. split; [reflexivity|].
      repeat split; simpl; rewrite ?Hlog, ?Hnil; reflexivity.
    + rewrite (step_INSERT st value Hsel Hne), (nonempty_length _ Hne).
      rewrite slice_to_length.
      eexists; eexists; split; [reflexivity|]. split; [reflexivity|].
      repeat split; simpl; rewrite ?Hlog, ?Hcur; reflexivity.
Qed.

Lemma in_step_run (inputCommands : list command) :
  only_text inputCommands = true ->
  forall old st, in_step old st ->
    exists old' st',
      IndexJs.forEach inputCommands old = Ok old' /\
      forEach inputCommands st = Ok st' /\ in_step old' st'.
Proof.
  induction inputCommands as [|t rest IH]; intros Hall old st Hin; simpl in *.
  - now exists old, st.
  - apply andb_prop in Hall. destruct Hall as [Ho Hall].
    destruct (in_step_step old st t Hin Ho) as (old1 & st1 & E1 & E2 & Hin1).
    rewrite E1, E2. simpl. now apply IH.
Qed.

Lemma notepads_agree_on_text (inputCommands : list command) :
  only_text inputCommands = true ->
  IndexJs.notepad inputCommands = notepad inputCommands.
Proof.
  intro Hall. unfold IndexJs.notepad, notepad.
  destruct (in_step_run inputCommands Hall IndexJs.init init)
    as (old' & st' & E1 & E2 & Hlog & _).
  - repeat split.
  - rewrite E1, E2. simpl. now rewrite Hlog.
Qed.

(** ** The shape of a run *)

Lemma forEach_app (p q : list command) (st : state) :
  forEach (p ++ q) st = (st' <- forEach p st ;; forEach q st').
Proof.
  revert st. induction p as [|t p IH]; intro st; simpl; [reflexivity|].
  destruct (step st t) as [st1|e]; simpl; [apply IH | reflexivity].
Qed.

(** A step leaves the log alone or pushes one snapshot. *)
Lemma step_log_grows (st st' : state) (t : command) :
  step st t = Ok st' ->
  exists new, resultsArray st' = (resultsArray st ++ new)%list.
Proof.
  step_cases st t; intro H; injection H as <-;
    try destruct (clampPosition _ _ =? clampPosition _ _); simpl;
    try match goal with E : resultsArray st = [] |- _ => rewrite E end;
    first [ now exists [] ; rewrite List.app_nil_r
          | eexists; reflexivity
          | exists []; now rewrite List.app_nil_r ].
Qed.

Lemma forEach_log_grows (inputCommands : list command) :
  forall st st', forEach inputCommands st = Ok st' ->
    exists new, resultsArray st' = (resultsArray st ++ new)%list.
Proof.
  induction inputCommands as [|t rest IH]; intros st st' H; simpl in H.
  - injection H as <-. exists []. now rewrite List.app_nil_r.
  - destruct (step st t) as [st1|e] eqn:E; simpl in H; [|discriminate].
    destruct (step_log_grows _ _ _ E) as [n1 E1].
    destruct (IH _ _ H) as [n2 E2].
    exists (n1 ++ n2)%list. now rewrite E2, E1, List.app_assoc.
Qed.

(** X1. The log is append-only: the snapshots of a list of commands are
    the first snapshots of every list that continues it. *)
Theorem snapshots_are_never_rewritten (p q : list command) :
  exists first more,
    notepad p = Ok first /\ notepad (p ++ q) = Ok (first ++ more)%list.
Proof.
  unfold notepad. rewrite forEach_app.
  destruct (forEach_total p init) as [st1 E1]. rewrite E1. simpl.
  destruct (forEach_total q st1) as [st2 E2]. rewrite E2. simpl.
  destruct (forEach_log_grows q st1 st2 E2) as [more Hmore].
  exists (resultsArray st1), more. split; [reflexivity|]. now rewrite Hmore.
Qed.

Lemma step_with_content (st : state) (t : command) :
  resultsArray st <> [] ->
  exists st',
    step st t = Ok st' /\ resultsArray st' <> [] /\
    List.length (resultsArray st')
    = (List.length (resultsArray st) + if produces t then 1 else 0)%nat /\
    console st' = console st.
Proof.
  intro Hne.
  destruct (selection st) as [r|] eqn:Es; destruct t as [v|v|v|v|l r'].
  all: first [ rewrite (step_SELECT st)
             | rewrite (step_replace_APPEND st r _ Es)
             | rewrite (step_replace_INSERT st r _ Es)
             | rewrite (step_delete_selection st r _ Es Hne)
             | rewrite (step_APPEND st _ Es)
             | rewrite (step_MOVE st _ Hne)
             | rewrite (step_BACKSPACE st _ Es Hne)
             | rewrite (step_INSERT st _ Es Hne) ].
  all: try destruct (clampPosition _ _ =? clampPosition _ _).
  all: eexists; (split; [reflexivity|]); simpl.
  all: rewrite ?List.length_app; simpl.
  all: repeat split; try apply push_not_empty; try assumption; lia.
Qed.

Lemma step_originates (st : state) (t : command) :
  originates t = true ->
  exists st',
    step st t = Ok st' /\ resultsArray st' <> [] /\
    List.length (resultsArray st') = S (List.length (resultsArray st)) /\
    console st' = console st.
Proof.
  intro Ho.
  destruct (selection st) as [r|] eqn:Es;
    destruct (log_empty_dec (resultsArray st)) as [El|El];
    destruct t as [v|v|v|v|l r']; try discriminate.
  all: first [ rewrite (step_replace_APPEND st r _ Es)
             | rewrite (step_replace_INSERT st r _ Es)
             | rewrite (step_APPEND st _ Es)
             | rewrite (step_INSERT_first st _ Es El)
             | rewrite (step_INSERT st _ Es El) ].
  all: eexists; (split; [reflexivity|]); simpl.
  all: rewrite ?List.length_app, ?El; simpl.
  all: repeat split; try apply push_not_empty; try discriminate; lia.
Qed.

Lemma step_without_content (st : state) (t : command) :
  resultsArray st = [] -> originates t = false ->
  exists st',
    step st t = Ok st' /\ resultsArray st' = [] /\
    console st'
    = (console st ++ if guarded t then [skip_message t] else [])%list.
Proof.
  intros Hnil Ho. destruct t as [v|v|v|v|l r]; try discriminate.
  - rewrite (step_skipped st (MOVE v) Hnil eq_refl eq_refl).
    eexists; split; [reflexivity|]. split; [exact Hnil | reflexivity].
  - rewrite (step_skipped st (BACKSPACE v) Hnil eq_refl eq_refl).
    eexists; split; [reflexivity|]. split; [exact Hnil | reflexivity].
  - rewrite step_SELECT. destruct (_ =? _);
      (eexists; split; [reflexivity|]); simpl;
      (split; [exact Hnil | now rewrite List.app_nil_r]).
Qed.

(** A run that starts with content: no warning, one snapshot for each
    [APPEND], [INSERT] and [BACKSPACE]. *)
Lemma run_with_content (inputCommands : list command) :
  forall st, resultsArray st <> [] ->
    exists st',
      forEach inputCommands st = Ok st' /\
      List.length (resultsArray st')
      = (List.length (resultsArray st)
         + List.length (filter produces inputCommands))%nat /\
      console st' = console st.
Proof.
  induction inputCommands as [|t rest IH]; intros st Hne; simpl.
  - exists st. repeat split. lia.
  - destruct (step_with_content st t Hne) as (st1 & E & Hne1 & Hlen & Hcon).
    rewrite E. simpl.
    destruct (IH st1 Hne1) as (st' & E' & Hlen' & Hcon').
    exists st'. split; [exact E'|]. split; [|congruence].
    rewrite Hlen', Hlen. destruct (produces t); simpl; lia.
Qed.

(** A run from an empty log: the commands before the first [APPEND] or
    [INSERT] only warn, the others run with content. *)
Lemma run_from_empty (inputCommands : list command) :
  forall st, resultsArray st = [] ->
    exists st',
      forEach inputCommands st = Ok st' /\
      List.length (resultsArray st')
      = List.length (filter produces (from_content inputCommands)) /\
      console st'
      = (console st
         ++ map skip_message (filter guarded (before_content inputCommands)))%list.
Proof.
  induction inputCommands as [|t rest IH]; intros st Hnil; simpl.
  - exists st. rewrite Hnil, List.app_nil_r. repeat split.
  - destruct (originates t) eqn:Ho.
    + destruct (step_originates st t Ho) as (st1 & E & Hne1 & Hlen & Hcon).
      rewrite E. simpl.
      destruct (run_with_content rest st1 Hne1) as (st' & E' & Hlen' & Hcon').
      exists st'. split; [exact E'|]. split.
      * rewrite Hlen', Hlen, Hnil.
        assert (Hp : produces t = true) by (destruct t; try discriminate; reflexivity).
        rewrite Hp. simpl. reflexivity.
      * rewrite Hcon', Hcon, List.app_nil_r. reflexivity.
    + destruct (step_without_content st t Hnil Ho) as (st1 & E & Hnil1 & Hcon).
      rewrite E. simpl.
      destruct (IH st1 Hnil1) as (st' & E' & Hlen' & Hcon').
      exists st'. split; [exact E'|]. split; [exact Hlen'|].
      rewrite Hcon', Hcon, <- List.app_assoc.
      destruct (guarded t); reflexivity.
Qed.

(** X2. The number of snapshots: one for each [APPEND], [INSERT] and
    [BACKSPACE] from the first [APPEND] or [INSERT] on, none for what
    comes before and none for [MOVE] and [SELECT]. *)
Theorem snapshot_count (inputCommands : list command) :
  exists snapshots,
    notepad inputCommands = Ok snapshots /\
    List.length snapshots
    = List.length (filter produces (from_content inputCommands)).
Proof.
  unfold notepad.
  destruct (run_from_empty inputCommands init eq_refl) as (st & E & Hlen & _).
  rewrite E. simpl. now exists (resultsArray st).
Qed.

(** X3. The warnings: one line for each [MOVE] and [BACKSPACE] that
    comes before the first [APPEND] or [INSERT], in order, naming the
    command; nothing else is ever written to the console. *)
Theorem warnings_of_a_run (inputCommands : list command) :
  exists st,
    forEach inputCommands init = Ok st /\
    console st
    = map skip_message (filter guarded (before_content inputCommands)).
Proof.
  destruct (run_from_empty inputCommands init eq_refl) as (st & E & _ & Hcon).
  exists st. split; [exact E | exact Hcon].
Qed.

(** ** What holds while there is a selection *)

Lemma current_after_push
    (log : list string) (x : string) (c : number) (sel : option range)
    (out : list string) :
  current (mkState (log ++ [x]) c sel out) = x.
Proof. unfold current; simpl. apply last_or_empty_push. Qed.

Lemma string_app_empty_r (a : string) : (a ++ EmptyString)%string = a.
Proof. induction a as [|ch a IH]; simpl; [reflexivity | now rewrite IH]. Qed.

Lemma content_of_length (st : state) : 0 < len (current st) -> resultsArray st <> [].
Proof.
  intros H E. unfold current in H. rewrite E in H. simpl in H.
  unfold len in H. simpl in H. lia.
Qed.

Lemma step_selection_settled (st : state) (t : command) (st' : state) :
  selection_settled st -> step st t = Ok st' -> selection_settled st'.
Proof.
  unfold selection_settled. intro Hs.
  destruct t as [v|v|v|v|l r].
  - destruct (selection st) as [r|] eqn:Es.
    + rewrite (step_replace_APPEND st r v Es). intro H; injection H as <-. exact I.
    + rewrite (step_APPEND st v Es). intro H; injection H as <-. exact I.
  - destruct (log_empty_dec (resultsArray st)) as [Hnil|Hne].
    + rewrite (step_skipped st (MOVE v) Hnil eq_refl eq_refl).
      intro H; injection H as <-. exact Hs.
    + rewrite (step_MOVE st v Hne). intro H; injection H as <-. exact I.
  - destruct (log_empty_dec (resultsArray st)) as [Hnil|Hne].
    + rewrite (step_skipped st (BACKSPACE v) Hnil eq_refl eq_refl).
      intro H; injection H as <-. exact Hs.
    + destruct (selection st) as [r|] eqn:Es.
      * rewrite (step_delete_selection st r v Es Hne).
        intro H; injection H as <-. exact I.
      * rewrite (step_BACKSPACE st v Es Hne). intro H; injection H as <-. exact I.
  - destruct (selection st) as [r|] eqn:Es.
    + rewrite (step_replace_INSERT st r v Es). intro H; injection H as <-. exact I.
    + destruct (log_empty_dec (resultsArray st)) as [Hnil|Hne].
      * rewrite (step_INSERT_first st v Es Hnil). intro H; injection H as <-. exact I.
      * rewrite (step_INSERT st v Es Hne). intro H; injection H as <-. exact I.
  - rewrite step_SELECT. intro H; injection H as <-.
    pose proof (len_nonneg (current st)) as Hn.
    destruct (_ =? _) eqn:E; simpl; [exact I|].
    apply Z.eqb_neq in E.
    change (current (mkState (resultsArray st)
                       (Int (clampPosition r (len (current st))))
                       (Some (mkRange (clampPosition l (len (current st)))
                                      (clampPosition r (len (current st)))))
                       (console st)))
      with (current st).
    split; [apply content_of_length; unfold clampPosition in E; lia|].
    split; [reflexivity|].
    split; [unfold clampPosition; lia|].
    split; [unfold clampPosition; lia | exact E].
Qed.

(** X4. In every reachable state with a selection there is content, the
    cursor is at the end of the selection, and the two ends of the
    selection lie in the current buffer and differ. *)
Theorem selection_is_settled (st : state) :
  reachable st -> selection_settled st.
Proof.
  intros [inputCommands H].
  eapply (forEach_preserves selection_settled);
    [exact step_selection_settled | | exact H].
  exact I.
Qed.

Lemma selection_is_settled_witness :
  selection_settled (mkState ["Hello World!"] (Int 5) (Some (mkRange 0 5)) []).
Proof.
  apply selection_is_settled.
  exists [APPEND "Hello World!"; SELECT 0 5]. reflexivity.
Defined.

(** X6. The last [SELECT] wins: a [SELECT] that follows a [SELECT]
    leaves the state that it leaves on its own. *)
Theorem select_overrides_select (st : state) (a b c d : Z) :
  exists st1,
    step st (SELECT a b) = Ok st1 /\
    step st1 (SELECT c d) = step st (SELECT c d).
Proof.
  rewrite (step_SELECT st a b).
  destruct (_ =? _); eexists; (split; [reflexivity|]);
    rewrite !step_SELECT; reflexivity.
Qed.

(** X7. While there is a selection (in order and in the buffer),
    [APPEND] does what [INSERT] does: the selected text is replaced, the
    text before and after it is kept, the cursor comes after the new
    text and the selection is dropped. *)
Theorem selection_is_replaced (st : state) (r : range) (value : string) :
  selection st = Some r ->
  0 <= start r -> start r <= end_ r -> end_ r <= len (current st) ->
  exists st',
    step st (APPEND value) = Ok st' /\ step st (INSERT value) = Ok st' /\
    current st'
    = (upto (start r) (current st) ++ value ++ from (end_ r) (current st))%string /\
    len (current st') = len (current st) - (end_ r - start r) + len value /\
    cursor st' = Int (start r + len value) /\ selection st' = None.
Proof.
  intros Es H0 Hle Hlen.
  rewrite (step_replace_APPEND st r value Es), (step_replace_INSERT st r value Es).
  eexists; split; [reflexivity|]. split; [reflexivity|].
  rewrite current_after_push. simpl.
  split; [now rewrite slice_prefix, slice_suffix by lia|].
  split; [rewrite replace_length by lia; lia|].
  split; reflexivity.
Qed.

Lemma selection_is_replaced_witness :
  exists st',
    step (mkState ["Hello World!"] (Int 5) (Some (mkRange 0 5)) []) (APPEND "Hi")
    = Ok st' /\ current st' = "Hi World!".
Proof.
  destruct (selection_is_replaced
              (mkState ["Hello World!"] (Int 5) (Some (mkRange 0 5)) [])
              (mkRange 0 5) "Hi" eq_refl)
    as (st' & E & _ & Hcur & _); [simpl; lia | simpl; lia | vm_compute; discriminate|].
  exists st'. split; [exact E | exact Hcur].
Defined.

Lemma reachable_not_negative_witness : not_negative ab_overshoot.
Proof.
  apply reachable_not_negative.
  exists [APPEND "ab"; BACKSPACE (Some (-3))]. reflexivity.
Defined.

(** ** Selecting everything, and selecting backwards *)

Lemma slice_nothing_before (s : string) :
  slice s (Int 0) (Some (Int 0)) = EmptyString.
Proof. rewrite slice_prefix by lia. apply substring_0_0. Qed.

Lemma slice_nothing_after (s : string) :
  slice s (Int (len s)) None = EmptyString.
Proof.
  rewrite slice_suffix by apply len_nonneg.
  apply substring_past. unfold len. lia.
Qed.

Lemma len_zero_empty (s : string) : len s = 0 -> s = EmptyString.
Proof. destruct s; [reflexivity | unfold len; simpl; lia]. Qed.

Lemma clampPosition_low (pos n : Z) : pos <= 0 -> 0 <= n -> clampPosition pos n = 0.
Proof. unfold clampPosition. lia. Qed.

Lemma clampPosition_high (pos n : Z) : n <= pos -> 0 <= n -> clampPosition pos n = n.
Proof. unfold clampPosition. lia. Qed.


(** X8. A [SELECT] that covers the whole buffer followed by [INSERT v]
    or by [APPEND v] leaves [v] as the buffer, with the cursor at its
    end, in every state (also before any content). *)
Theorem select_all_then_type (st : state) (leftPos rightPos : Z) (value : string) :
  leftPos <= 0 -> len (current st) <= rightPos ->
  exists st1 st2,
    step st (SELECT leftPos rightPos) = Ok st1 /\
    step st1 (INSERT value) = Ok st2 /\ step st1 (APPEND value) = Ok st2 /\
    current st2 = value /\ cursor st2 = Int (len value) /\ selection st2 = None.
Proof.
  intros Hl Hr. pose proof (len_nonneg (current st)) as Hn.
  rewrite step_SELECT, (clampPosition_low leftPos), (clampPosition_high rightPos)
    by assumption.
  destruct (0 =? len (current st)) eqn:E.
  - (* an empty buffer: no selection, the cursor at 0 *)
    apply Z.eqb_eq in E. symmetry in E. apply len_zero_empty in E.
    destruct (log_empty_dec (resultsArray st)) as [Hnil|Hne];
      eexists; eexists; (split; [reflexivity|]).
    + rewrite step_INSERT_first, step_APPEND by (simpl; first [reflexivity | exact Hnil]).
      unfold current; simpl. rewrite Hnil. simpl.
      repeat split.
    + rewrite step_INSERT, step_APPEND by (simpl; first [reflexivity | exact Hne]).
      change (current (mkState (resultsArray st) (Int 0) None (console st)))
        with (current st).
      rewrite E. cbn [cursor resultsArray console add].
      change (slice EmptyString (Int 0) (Some (Int 0))) with EmptyString.
      change (slice EmptyString (Int 0) None) with EmptyString.
      rewrite string_app_empty_r. simpl.
      split; [reflexivity|]. split; [reflexivity|].
      rewrite current_after_push. repeat split.
  - (* the whole buffer is selected *)
    apply Z.eqb_neq in E.
    eexists; eexists; split; [reflexivity|].
    rewrite (step_replace_INSERT _ (mkRange 0 (len (current st)))) by reflexivity.
    rewrite (step_replace_APPEND _ (mkRange 0 (len (current st)))) by reflexivity.
    change (current (mkState (resultsArray st) (Int (len (current st)))
                       (Some (mkRange 0 (len (current st)))) (console st)))
      with (current st).
    simpl. rewrite slice_nothing_before, slice_nothing_after, current_after_push.
    simpl. rewrite string_app_empty_r. repeat split.
Qed.

Lemma select_all_then_type_witness :
  exists st1 st2,
    step hello (SELECT (-10) 20) = Ok st1 /\
    step st1 (INSERT "ABC") = Ok st2 /\ step st1 (APPEND "ABC") = Ok st2 /\
    current st2 = "ABC" /\ cursor st2 = Int (len "ABC") /\ selection st2 = None.
Proof.
  apply (select_all_then_type hello (-10) 20 "ABC"); [lia | vm_compute; discriminate].
Defined.





(** ** Moving the cursor *)

Lemma step_MOVE_number (st : state) (c value : Z) :
  resultsArray st <> [] -> cursor st = Int c ->
  step st (MOVE value)
  = Ok (mkState (resultsArray st)
          (Int (clampPosition (c + value) (len (current st)))) None (console st)).
Proof.
  intros Hne Hc. rewrite (step_MOVE st value Hne), Hc. simpl.
  pose proof (len_nonneg (current st)) as Hn.
  destruct (c + value <? 0) eqn:E1.
  - apply Z.ltb_lt in E1. do 3 f_equal. unfold clampPosition. lia.
  - apply Z.ltb_ge in E1.
    destruct (len (current st) <? c + value) eqn:E2.
    + apply Z.ltb_lt in E2. do 3 f_equal. unfold clampPosition. lia.
    + apply Z.ltb_ge in E2. do 3 f_equal. unfold clampPosition. lia.
Qed.

(** X11. Once there is content, [MOVE] takes a cursor that is a number
    to [cursor + delta] clamped into the buffer, with the clamp of
    [SELECT]; so the cursor is in the buffer after a [MOVE] even when it
    was not before.  The log is kept and the selection dropped. *)
Theorem move_clamps_like_select (st : state) (c value : Z) :
  resultsArray st <> [] -> cursor st = Int c ->
  exists st',
    step st (MOVE value) = Ok st' /\
    cursor st' = Int (clampPosition (c + value) (len (current st))) /\
    cursor_in_bounds st' /\
    resultsArray st' = resultsArray st /\ selection st' = None.
Proof.
  intros Hne Hc. rewrite (step_MOVE_number st c value Hne Hc).
  eexists; split; [reflexivity|]. simpl.
  split; [reflexivity|]. split; [|split; reflexivity].
  eexists; split; [reflexivity|].
  pose proof (len_nonneg (current st)).
  unfold current in *; simpl. unfold clampPosition. lia.
Qed.

Lemma move_clamps_like_select_witness :
  exists st',
    step ab_overshoot (MOVE 0) = Ok st' /\
    cursor st' = Int (clampPosition (5 + 0) (len (current ab_overshoot))) /\
    cursor_in_bounds st' /\
    resultsArray st' = resultsArray ab_overshoot /\ selection st' = None.
Proof.
  apply (move_clamps_like_select ab_overshoot 5 0); [discriminate | reflexivity].
Defined.

(** X12. Two [MOVE]s in the same direction are one [MOVE] by the sum,
    when the cursor is in the buffer; the state after them is the same. *)
Theorem moves_in_one_direction_add (st : state) (a b : Z) :
  resultsArray st <> [] -> cursor_in_bounds st ->
  (0 <= a /\ 0 <= b) \/ (a <= 0 /\ b <= 0) ->
  exists st1,
    step st (MOVE a) = Ok st1 /\
    step st1 (MOVE b) = step st (MOVE (a + b)).
Proof.
  intros Hne (c & Hc & Hb) Hdir.
  rewrite (step_MOVE_number st c a Hne Hc), (step_MOVE_number st c (a + b) Hne Hc).
  eexists; split; [reflexivity|].
  rewrite (step_MOVE_number _ (clampPosition (c + a) (len (current st))) b)
    by (simpl; first [exact Hne | reflexivity]).
  change (current (mkState (resultsArray st)
                     (Int (clampPosition (c + a) (len (current st))))
                     None (console st)))
    with (current st).
  simpl. do 3 f_equal. unfold clampPosition. lia.
Qed.

Lemma moves_in_one_direction_add_witness :
  exists st1,
    step hello (MOVE (-3)) = Ok st1 /\
    step st1 (MOVE (-600)) = step hello (MOVE (-3 + -600)).
Proof.
  apply (moves_in_one_direction_add hello (-3) (-600)).
  - discriminate.
  - exists 12. split; [reflexivity|]. vm_compute. split; discriminate.
  - right. lia.
Defined.

(** ** Deleting and typing at the cursor *)

(** X13. With the cursor in the buffer and a count that is not
    negative, [BACKSPACE] deletes exactly [min(count, cursor)]
    characters, those just before the cursor: the text before them and
    the text after the cursor are kept, and the cursor ends where the
    deleted text began. *)
Theorem backspace_deletes_before_cursor (st : state) (c count : Z) :
  resultsArray st <> [] -> selection st = None ->
  cursor st = Int c -> 0 <= c <= len (current st) -> 0 <= count ->
  exists st',
    step st (BACKSPACE (Some count)) = Ok st' /\
    cursor st' = Int (c - Z.min count c) /\
    len (current st') = len (current st) - Z.min count c /\
    upto (c - Z.min count c) (current st') = upto (c - Z.min count c) (current st) /\
    from (c - Z.min count c) (current st') = from c (current st).
Proof.
  intros Hne Hs Hc Hb Hk.
  rewrite (step_BACKSPACE st (Some count) Hs Hne), Hc. simpl.
  replace (Z.max 0 (c - count)) with (c - Z.min count c) by lia.
  set (d := c - Z.min count c). assert (Hd : 0 <= d <= c) by (unfold d; lia).
  eexists; split; [reflexivity|]. rewrite current_after_push. simpl.
  split; [reflexivity|].
  pose proof (length_slice_prefix (current st) d ltac:(lia)) as HA.
  pose proof (length_slice_suffix (current st) c ltac:(lia)) as HB.
  set (A := slice (current st) (Int 0) (Some (Int d))) in *.
  set (B := slice (current st) (Int c) None) in *.
  assert (EA : Z.to_nat d = String.length A) by (unfold len in HA; lia).
  split; [rewrite len_app; lia|].
  unfold upto, from. split.
  - transitivity A.
    + rewrite EA. apply substring_app_l.
    + unfold A. now rewrite slice_prefix by lia.
  - transitivity B.
    + rewrite EA, substring_app_r, string_length_app.
      apply substring_whole. lia.
    + unfold B. now rewrite slice_suffix by lia.
Qed.

Lemma backspace_deletes_before_cursor_witness :
  exists st',
    step hello (BACKSPACE (Some 600)) = Ok st' /\
    cursor st' = Int (12 - Z.min 600 12) /\
    len (current st') = len (current hello) - Z.min 600 12 /\
    upto (12 - Z.min 600 12) (current st')
    = upto (12 - Z.min 600 12) (current hello) /\
    from (12 - Z.min 600 12) (current st') = from 12 (current hello).
Proof.
  apply (backspace_deletes_before_cursor hello 12 600);
    [discriminate | reflexivity | reflexivity | vm_compute; split; discriminate | lia].
Defined.

(** X14. With no selection and the cursor at the end of the buffer,
    [INSERT] does what [APPEND] does, also before any content. *)
Theorem insert_at_the_end_is_append (st : state) (value : string) :
  selection st = None -> cursor st = Int (len (current st)) ->
  step st (INSERT value) = step st (APPEND value).
Proof.
  intros Hs Hc. rewrite (step_APPEND st value Hs).
  destruct (log_empty_dec (resultsArray st)) as [Hnil|Hne].
  - rewrite (step_INSERT_first st value Hs Hnil).
    unfold current. rewrite Hnil. reflexivity.
  - rewrite (step_INSERT st value Hs Hne), Hc. simpl.
    rewrite slice_nothing_after, string_app_empty_r.
    rewrite slice_prefix by apply len_nonneg.
    rewrite substring_whole by (unfold len; lia).
    now rewrite len_app.
Qed.

Lemma insert_at_the_end_is_append_witness :
  step hello (INSERT "!!") = step hello (APPEND "!!").
Proof.
  apply (insert_at_the_end_is_append hello "!!"); reflexivity.
Defined.

(** X15. With no selection, [APPEND a] then [APPEND b] leaves the
    buffer and the cursor that [APPEND (a ++ b)] leaves (with one
    snapshot more in the log). *)
Theorem appends_concatenate (st : state) (a b : string) :
  selection st = None ->
  exists st1 st2 st12,
    step st (APPEND a) = Ok st1 /\ step st1 (APPEND b) = Ok st2 /\
    step st (APPEND (a ++ b)) = Ok st12 /\
    current st2 = current st12 /\ cursor st2 = cursor st12 /\
    selection st2 = selection st12.
Proof.
  intro Hs. rewrite !(step_APPEND st _ Hs).
  eexists; eexists; eexists; split; [reflexivity|].
  rewrite step_APPEND by reflexivity.
  split; [reflexivity|]. split; [reflexivity|].
  rewrite ?current_after_push. simpl. rewrite ?current_after_push.
  rewrite string_app_assoc. repeat split.
Qed.

Lemma appends_concatenate_witness :
  exists st1 st2 st12,
    step hello (APPEND "Hi") = Ok st1 /\ step st1 (APPEND " there!") = Ok st2 /\
    step hello (APPEND ("Hi" ++ " there!")) = Ok st12 /\
    current st2 = current st12 /\ cursor st2 = cursor st12 /\
    selection st2 = selection st12.
Proof. apply (appends_concatenate hello "Hi" " there!"). reflexivity. Defined.

(** ** A cursor that is not a number *)





(** X17. [APPEND] and [SELECT] put the cursor into the buffer whatever
    it was before, [NaN] or past the end, provided a selection, if there
    is one, lies in the buffer. *)
Theorem cursor_is_restored (st : state) (t : command) :
  selection_in_bounds st -> sets_cursor t = true ->
  exists st', step st t = Ok st' /\ cursor_in_bounds st'.
Proof.
  intros Hsel Ht. destruct t as [v|v|v|v|l r]; try discriminate.
  - destruct (selection st) as [rg|] eqn:Es.
    + rewrite (step_replace_APPEND st rg v Es).
      eexists; split; [reflexivity|].
      unfold selection_in_bounds in Hsel. rewrite Es in Hsel.
      destruct Hsel as [H1 H2].
      eexists; split; [reflexivity|]. rewrite current_after_push.
      rewrite replace_length by assumption.
      pose proof (len_nonneg v). lia.
    + rewrite (step_APPEND st v Es).
      eexists; split; [reflexivity|].
      eexists; split; [reflexivity|]. rewrite current_after_push.
      pose proof (len_nonneg (current st ++ v)). lia.
  - destruct (well_formed_SELECT st l r) as (st' & E & Hwf & _).
    exists st'. split; assumption.
Qed.

Lemma cursor_is_restored_witness :
  exists st',
    step (mkState ["ab"; EmptyString; "ab"] NaN None []) (SELECT 1 1) = Ok st' /\
    cursor_in_bounds st'.
Proof.
  apply (cursor_is_restored
           (mkState ["ab"; EmptyString; "ab"] NaN None []) (SELECT 1 1));
    [exact I | reflexivity].
Defined.

(** ** The earlier notepad *)

Lemma index_js_step_MOVE (old : IndexJs.state) (c value : Z) :
  IndexJs.resultsArray old <> [] -> IndexJs.cursor old = Int c ->
  IndexJs.step old (MOVE value)
  = Ok (IndexJs.mkState (IndexJs.resultsArray old)
          (Int (if c + value <? 0 then 0
                else Z.min (c + value)
                       (len (last_or_empty (IndexJs.resultsArray old)) - 1)))
          (IndexJs.console old)).
Proof.
  intros Hne Hc. unfold IndexJs.step, IndexJs.skipped.
  rewrite (nonempty_length _ Hne), Hc. simpl.
  destruct (c + value <? 0) eqn:E1; [reflexivity|].
  destruct (len (last_or_empty (IndexJs.resultsArray old)) - 1 <? c + value) eqn:E2.
  - apply Z.ltb_lt in E2. unfold ret, IndexJs.set_cursor. simpl.
    do 3 f_equal. lia.
  - apply Z.ltb_ge in E2. unfold ret, IndexJs.set_cursor. simpl.
    do 3 f_equal. lia.
Qed.

(** X18. In [src/index.js], a [MOVE] never leaves the cursor at the end
    of a text that is not empty: from a cursor that is a number it ends
    in [0 .. length - 1]; on an empty buffer a target that is not
    negative leaves the cursor at -1. *)
Theorem index_js_move_stays_below_the_end (old : IndexJs.state) (c value : Z) :
  IndexJs.resultsArray old <> [] -> IndexJs.cursor old = Int c ->
  exists old' c',
    IndexJs.step old (MOVE value) = Ok old' /\
    IndexJs.resultsArray old' = IndexJs.resultsArray old /\
    IndexJs.cursor old' = Int c' /\
    (0 < len (last_or_empty (IndexJs.resultsArray old)) ->
     0 <= c' < len (last_or_empty (IndexJs.resultsArray old))) /\
    (len (last_or_empty (IndexJs.resultsArray old)) = 0 ->
     0 <= c + value -> c' = -1).
Proof.
  intros Hne Hc. rewrite (index_js_step_MOVE old c value Hne Hc).
  eexists; eexists; split; [reflexivity|]. simpl.
  split; [reflexivity|]. split; [reflexivity|].
  destruct (c + value <? 0) eqn:E; [apply Z.ltb_lt in E | apply Z.ltb_ge in E];
    split; intros; lia.
Qed.

Lemma index_js_move_stays_below_the_end_witness :
  exists old' c',
    IndexJs.step index_js_hello (MOVE 0) = Ok old' /\
    IndexJs.resultsArray old' = IndexJs.resultsArray index_js_hello /\
    IndexJs.cursor old' = Int c' /\
    (0 < len (last_or_empty (IndexJs.resultsArray index_js_hello)) ->
     0 <= c' < len (last_or_empty (IndexJs.resultsArray index_js_hello))) /\
    (len (last_or_empty (IndexJs.resultsArray index_js_hello)) = 0 ->
     0 <= 12 + 0 -> c' = -1).
Proof.
  apply (index_js_move_stays_below_the_end index_js_hello 12 0);
    [discriminate | reflexivity].
Defined.

(** [s.slice(0, e)] for an end that is negative: counted from the end. *)
Lemma slice_prefix_from_end (s : string) (e : Z) :
  e < 0 -> 0 <= len s + e ->
  slice s (Int 0) (Some (Int e)) = substring 0 (Z.to_nat (len s + e)) s.
Proof.
  intros He Hin. unfold slice, relative_index; simpl.
  destruct (e <? 0) eqn:E; [|apply Z.ltb_ge in E; lia].
  rewrite Z.min_l by apply len_nonneg. rewrite Z.max_l by lia.
  destruct (len s + e <=? 0) eqn:E0.
  - apply Z.leb_le in E0. replace (len s + e) with 0 by lia.
    now rewrite substring_0_0.
  - now rewrite Z.sub_0_r.
Qed.

(** X19. In [src/index.js], a [BACKSPACE] whose count is larger than the
    cursor is not clamped: the first slice counts from the end, so that
    [count - cursor] characters are dropped at the end of the text kept
    before [from cursor], and the cursor becomes negative. *)
Theorem index_js_backspace_past_the_start (old : IndexJs.state) (c count : Z) :
  IndexJs.resultsArray old <> [] -> IndexJs.cursor old = Int c ->
  0 <= c <= len (last_or_empty (IndexJs.resultsArray old)) ->
  c < count -> count - c <= len (last_or_empty (IndexJs.resultsArray old)) ->
  exists old',
    IndexJs.step old (BACKSPACE (Some count)) = Ok old' /\
    IndexJs.cursor old' = Int (c - count) /\ c - count < 0 /\
    last_or_empty (IndexJs.resultsArray old')
    = (upto (len (last_or_empty (IndexJs.resultsArray old)) - (count - c))
         (last_or_empty (IndexJs.resultsArray old))
       ++ from c (last_or_empty (IndexJs.resultsArray old)))%string.
Proof.
  intros Hne Hc Hb Hlt Hfit. unfold IndexJs.step, IndexJs.skipped.
  rewrite (nonempty_length _ Hne). simpl. rewrite !Hc. simpl.
  eexists; split; [reflexivity|]. simpl.
  split; [reflexivity|]. split; [lia|].
  rewrite last_or_empty_push, slice_to_length.
  rewrite slice_prefix_from_end, slice_suffix by lia.
  unfold upto, from. do 3 f_equal. lia.
Qed.

Lemma index_js_backspace_past_the_start_witness :
  exists old',
    IndexJs.step index_js_hello (BACKSPACE (Some 14)) = Ok old' /\
    IndexJs.cursor old' = Int (12 - 14) /\ 12 - 14 < 0 /\
    last_or_empty (IndexJs.resultsArray old')
    = (upto (len (last_or_empty (IndexJs.resultsArray index_js_hello)) - (14 - 12))
         (last_or_empty (IndexJs.resultsArray index_js_hello))
       ++ from 12 (last_or_empty (IndexJs.resultsArray index_js_hello)))%string.
Proof.
  apply (index_js_backspace_past_the_start index_js_hello 12 14);
    first [discriminate | reflexivity | (vm_compute; split; discriminate)
          | (vm_compute; discriminate)].
Defined.

(** ** Where the two notepads agree *)





(** ** The first snapshot *)

Lemma first_content (inputCommands : list command) :
  forall st t rest,
    resultsArray st = [] -> selection st = None ->
    from_content inputCommands = t :: rest ->
    exists st' more,
      forEach inputCommands st = Ok st' /\
      resultsArray st' = text_of t :: more.
Proof.
  induction inputCommands as [|t0 cs IH]; intros st t rest Hnil Hs Hfrom;
    simpl in Hfrom; [discriminate|].
  simpl. destruct (originates t0) eqn:Ho.
  - injection Hfrom as <- <-.
    assert (E : step st t0
                = Ok (mkState [text_of t0] (Int (len (text_of t0))) None (console st))).
    { destruct t0 as [v|v|v|v|l r]; try discriminate.
      - rewrite (step_APPEND st v Hs). unfold current. rewrite Hnil. reflexivity.
      - apply (step_INSERT_first st v Hs Hnil). }
    rewrite E. simpl.
    destruct (forEach_total cs
                (mkState [text_of t0] (Int (len (text_of t0))) None (console st)))
      as [st' E'].
    destruct (forEach_log_grows cs _ _ E') as [more Hmore].
    exists st', more. split; [exact E' | exact Hmore].
  - destruct (step_without_content st t0 Hnil Ho) as (st1 & E & Hnil1 & _).
    rewrite E. simpl. apply (IH st1 t rest Hnil1); [|exact Hfrom].
    destruct t0 as [v|v|v|v|l r]; try discriminate.
    + rewrite (step_skipped st (MOVE v) Hnil eq_refl eq_refl) in E.
      injection E as <-. exact Hs.
    + rewrite (step_skipped st (BACKSPACE v) Hnil eq_refl eq_refl) in E.
      injection E as <-. exact Hs.
    + rewrite step_SELECT, (len_current_empty st Hnil), !clampPosition_0 in E.
      injection E as <-. reflexivity.
Qed.

(** X21. The first snapshot is the text of the first [APPEND] or
    [INSERT], whatever [MOVE], [BACKSPACE] and [SELECT] commands come
    before it. *)
Theorem first_snapshot_is_first_text
    (inputCommands : list command) (t : command) (rest : list command) :
  from_content inputCommands = t :: rest ->
  exists more, notepad inputCommands = Ok (text_of t :: more).
Proof.
  intro Hfrom. unfold notepad.
  destruct (first_content inputCommands init t rest eq_refl eq_refl Hfrom)
    as (st' & more & E & Hlog).
  rewrite E. simpl. exists more. now rewrite Hlog.
Qed.

Lemma first_snapshot_is_first_text_witness :
  exists more,
    notepad [MOVE 3; SELECT 1 4; BACKSPACE None; INSERT "Hi"; MOVE (-1); INSERT "x"]
    = Ok ("Hi" :: more).
Proof.
  apply (first_snapshot_is_first_text
           [MOVE 3; SELECT 1 4; BACKSPACE None; INSERT "Hi"; MOVE (-1); INSERT "x"]
           (INSERT "Hi") [MOVE (-1); INSERT "x"]).
  reflexivity.
Defined.

(** ** Totality, and what is clamped *)

(** C9, as stated, fails in its last part: no command throws, but a
    position out of range is not always clamped.  After
    [INSERT "abc"; BACKSPACE -10] the buffer is "abc" and the cursor 13. *)
Lemma positions_are_not_always_clamped :
  ~ (forall inputCommands : list command,
       exists st, forEach inputCommands init = Ok st /\ well_formed st).
Proof.
  intro H.
  destruct (H [INSERT "abc"; BACKSPACE (Some (-10))])
    as (st & E & (c & Hc & Hb) & _).
  vm_compute in E. injection E as <-.
  injection Hc as <-. vm_compute in Hb. destruct Hb as [_ Hb].
  apply Hb. reflexivity.
Qed.

Lemma selection_settled_in_bounds (st : state) :
  selection_settled st -> selection_in_bounds st.
Proof.
  unfold selection_settled, selection_in_bounds.
  destruct (selection st) as [r|]; [|trivial].
  intros (_ & _ & Hs & He & _). split; assumption.
Qed.

(** C9, amended. [notepad] returns the log of snapshots on every list
    of commands, whatever the integers in them: no command throws, and
    each [APPEND], [INSERT] and [BACKSPACE] from the first content on
    gives one snapshot.  Of the positions kept, the ends of a selection
    always lie in the buffer and the cursor is never negative; [SELECT]
    with any bounds, and [MOVE] by any amount from a cursor that is a
    number, leave the cursor in [0 .. length(current)]. *)
Theorem notepad_total_and_clamping (inputCommands : list command) :
  exists st,
    forEach inputCommands init = Ok st /\
    notepad inputCommands = Ok (resultsArray st) /\
    List.length (resultsArray st)
    = List.length (filter produces (from_content inputCommands)) /\
    selection_in_bounds st /\ not_negative st /\
    (forall leftPos rightPos,
        exists st', step st (SELECT leftPos rightPos) = Ok st' /\
                    well_formed st') /\
    (forall value c, cursor st = Int c ->
        exists st', step st (MOVE value) = Ok st' /\ cursor_in_bounds st').
Proof.
  destruct (run_from_empty inputCommands init eq_refl) as (st & E & Hlen & _).
  assert (Hr : reachable st) by (now exists inputCommands).
  exists st. split; [exact E|].
  split; [unfold notepad; now rewrite E|].
  split; [exact Hlen|].
  split.
  { apply selection_settled_in_bounds.
    eapply (forEach_preserves selection_settled);
      [exact step_selection_settled | | exact E].
    exact I. }
  split.
  { eapply (forEach_preserves not_negative);
      [exact step_not_negative | | exact E].
    split; [simpl; lia | exact I]. }
  split.
  - intros leftPos rightPos.
    destruct (well_formed_SELECT st leftPos rightPos) as (st' & E' & Hwf).
    exists st'. split; [exact E' | exact Hwf].
  - intros value c Hc.
    destruct (log_empty_dec (resultsArray st)) as [Hnil|Hne].
    + rewrite (step_skipped st (MOVE value) Hnil eq_refl eq_refl).
      eexists; split; [reflexivity|].
      destruct (reachable_blank st Hr Hnil) as [Hc0 _].
      exists 0. split; [exact Hc0|].
      unfold current; simpl. rewrite Hnil. vm_compute. split; discriminate.
    + rewrite (step_MOVE_number st c value Hne Hc).
      eexists; split; [reflexivity|].
      eexists; split; [reflexivity|].
      pose proof (len_nonneg (current st)).
      unfold current in *; simpl. unfold clampPosition. lia.
Qed.
